(** * GitHub PR review agent: the GitHub tools and their budgets

    A shallow embedding of [src/mastra/tools/github.ts] and of the schemas of
    [src/mastra/lib/schemas.ts], with the properties the specification states
    about URL parsing, the reviewability filter, pagination, content budgets
    and the aggregation of findings.

    Conventions.
    - A JavaScript string is a [string]: a finite sequence of code units, and
      [len] is its [.length].
    - A JavaScript number that the tools only use as an integer (a count, a
      page, a pull number they are given, a budget) is a [Z]; the number that
      [parseInt] returns is a [Number]: a double, or [Infinity], or [NaN].
    - An [async] tool body is a value of [Run]: the network requests it
      issued, in order, and either its result or the error it threw. *)

From Stdlib Require Import ZArith NArith List String Ascii Bool Lia.
Import ListNotations.

Local Open Scope string_scope.
Local Open Scope Z_scope.

(* ------------------------------------------------------------------ *)
(** ** Strings *)

Module Str.

(** [s.length] *)
Definition len (s : string) : Z := Z.of_nat (String.length s).

(** [s.slice(0, n)] for [0 <= n]: the first [n] code units of [s]. *)
Fixpoint take (n : nat) (s : string) : string :=
  match n, s with
  | O, _ => EmptyString
  | S _, EmptyString => EmptyString
  | S n', String c s' => String c (take n' s')
  end.

(** The code units of [s] after the first [n]. *)
Fixpoint drop (n : nat) (s : string) : string :=
  match n, s with
  | O, _ => s
  | S _, EmptyString => EmptyString
  | S n', String _ s' => drop n' s'
  end.

(** [t] starts with [p]. *)
Definition isPrefix (p t : string) : Prop := exists rest, t = p ++ rest.

(** [n] copies of the code unit [c]. *)
Definition replicate (n : N) (c : ascii) : string :=
  N.iter n (String c) EmptyString.

(** Every code unit of [s] satisfies [p]. *)
Fixpoint all (p : ascii -> bool) (s : string) : bool :=
  match s with
  | EmptyString => true
  | String c s' => p c && all p s'
  end.

(** The longest prefix of [s] whose code units satisfy [p], and the rest. *)
Fixpoint span (p : ascii -> bool) (s : string) : string * string :=
  match s with
  | EmptyString => (EmptyString, EmptyString)
  | String c s' =>
      if p c then let '(a, b) := span p s' in (String c a, b)
      else (EmptyString, s)
  end.

(** [b] does not start with a code unit that satisfies [p]: a span of [p]
    stops in front of it. *)
Definition stopsAt (p : ascii -> bool) (b : string) : Prop :=
  match b with
  | EmptyString => True
  | String c _ => p c = false
  end.

(** [s.endsWith(suffix)] *)
Definition endsWith (suffix s : string) : bool :=
  (String.length suffix <=? String.length s)%nat
  && String.eqb (drop (String.length s - String.length suffix) s) suffix.

(** JavaScript truthiness of a string: every string but the empty one. *)
Definition truthy (s : string) : bool :=
  match s with
  | EmptyString => false
  | String _ _ => true
  end.

End Str.

Arguments Str.replicate : simpl never.

(* ------------------------------------------------------------------ *)
(** ** [lib/schemas.ts] *)

Module Schemas.

(** [prIdentifierSchema] *)
Record PRIdentifier : Type := mkPRIdentifier {
  owner : string;
  repo : string;
  pullNumber : Z
}.

(** [fileSchema]: a changed file entry; [patch] is optional. *)
Record ChangedFile : Type := mkChangedFile {
  filename : string;
  status : string;
  additions : Z;
  deletions : Z;
  changes : Z;
  patch : option string
}.

(** The severities and categories of [fileReviewSchema]. *)
Inductive Severity : Type := critical | warning | suggestion | positive.

Inductive Category : Type :=
  bug | security | performance | style | quality | positiveCategory.

(** One entry of [fileReviewSchema.issues]. *)
Record Issue : Type := mkIssue {
  severity : Severity;
  category : Category;
  line : option string;
  message : string
}.

(** [fileReviewSchema] *)
Record FileReview : Type := mkFileReview {
  reviewedFile : string;
  issues : list Issue
}.

(** The verdicts of [aggregateSummarySchema]. *)
Inductive Verdict : Type := APPROVE | REQUEST_CHANGES | COMMENT.

(** [reviewOutputSchema]: [aggregateSummarySchema] extended with the
    step-injected [fileReviews] and [skippedFiles]. *)
Record ReviewOutput : Type := mkReviewOutput {
  summary : string;
  qualityScore : Z;
  verdict : Verdict;
  criticalIssues : list string;
  securityConcerns : list string;
  performanceNotes : list string;
  suggestions : list string;
  positiveNotes : list string;
  fileReviews : list FileReview;
  skippedFiles : list string
}.

End Schemas.

(* ------------------------------------------------------------------ *)
(** ** [lib/github.ts]: the content budgeter *)

Module Lib.

(** Modelled from the spec: [truncate] is imported from [lib/github], which is
    not among the sources.  Section 4.2: [truncate(text, maxChars) -> text']
    with [len(text') <= maxChars]; truncation is always from the tail; empty
    or short input returns unchanged. *)
Definition truncate (text : string) (maxChars : Z) : string :=
  if Str.len text <=? maxChars then text
  else Str.take (Z.to_nat maxChars) text.

End Lib.

(* ------------------------------------------------------------------ *)
(** ** Tool runs: network requests and thrown errors *)

Module Effects.

(** A thrown [Error], by its message. *)
Inductive Error : Type := mkError (msg : string).

Inductive Result (A : Type) : Type :=
| Ok (a : A)
| Threw (e : Error).

Arguments Ok {A} a.
Arguments Threw {A} e.

(** The requests a tool of [github.ts] can send. *)
Inductive NetCall : Type :=
| GetDiff (owner repo : string) (pullNumber : Z)
| GetFiles (owner repo : string) (pullNumber : Z)
| GetContent (owner repo path ref : string).

(** The run of an [async] body: the requests sent, oldest first, and how it
    ended. *)
Record Run (A : Type) : Type := mkRun {
  calls : list NetCall;
  outcome : Result A
}.

Arguments mkRun {A} calls outcome.
Arguments calls {A} r.
Arguments outcome {A} r.

(** [return a] *)
Definition ret {A} (a : A) : Run A := mkRun [] (Ok a).

(** [throw new Error(msg)] *)
Definition throw {A} (msg : string) : Run A := mkRun [] (Threw (mkError msg)).

(** [await] of a request whose answer (or rejection) is [r]. *)
Definition await {A} (c : NetCall) (r : Result A) : Run A := mkRun [c] r.

(** Sequencing: a thrown error ends the body. *)
Definition bind {A B} (m : Run A) (f : A -> Run B) : Run B :=
  match outcome m with
  | Ok a => mkRun (calls m ++ calls (f a)) (outcome (f a))
  | Threw e => mkRun (calls m) (Threw e)
  end.

End Effects.

Import Effects.

Notation "x <- m ;; k" := (bind m (fun x => k))
  (at level 61, m at next level, right associativity).

(* ------------------------------------------------------------------ *)
(** ** Regular expressions, as far as [github.ts] uses them *)

Module Regex.

(** A character class. *)
Inductive charset : Type :=
| CsNot (c : ascii)   (* [^c] *)
| CsDigit.            (* \d *)

(** [\d]: the code units of [0] to [9]. *)
Definition isDigit (c : ascii) : bool :=
  let n := N_of_ascii c in ((48 <=? n) && (n <=? 57))%N.

Definition inSet (cs : charset) (c : ascii) : bool :=
  match cs with
  | CsNot d => negb (Ascii.eqb c d)
  | CsDigit => isDigit c
  end.

Inductive regex : Type :=
| Bol                        (* ^ *)
| Eol                        (* $ *)
| Lit (s : string)           (* literal code units *)
| Opt (r : regex)            (* r? (greedy) *)
| Plus (cs : charset)        (* cs+ (greedy) *)
| Group (r : regex)          (* ( r ) *)
| Seq (r1 r2 : regex).

(** [s] without its prefix [p], when it has it. *)
Fixpoint stripPrefix (p s : string) : option string :=
  match p with
  | EmptyString => Some s
  | String c p' =>
      match s with
      | String d s' => if Ascii.eqb c d then stripPrefix p' s' else None
      | EmptyString => None
      end
  end.

Section Backtracking.
Context {R : Type}.

(** [cs*] then the continuation [k]: the longest run first, giving code
    units back one at a time while [k] fails. *)
Fixpoint star (cs : charset) (k : string -> option R) (s : string)
  : option R :=
  match s with
  | String c s' =>
      if inSet cs c then
        match star cs k s' with
        | Some r => Some r
        | None => k s
        end
      else k s
  | EmptyString => k s
  end.

(** [cs+] then [k]. *)
Definition plus (cs : charset) (k : string -> option R) (s : string)
  : option R :=
  match s with
  | String c s' => if inSet cs c then star cs k s' else None
  | EmptyString => None
  end.

End Backtracking.

(** The captures of the groups closed so far, in closing order. *)
Definition captures : Type := list string.

(** The backtracking matcher.  [input] is the whole subject, [s] what is left
    of it at the current position, [k] what has to match afterwards. *)
Fixpoint run (input : string) (r : regex) (s : string) (caps : captures)
  (k : string -> captures -> option captures) : option captures :=
  match r with
  | Bol =>
      if Nat.eqb (String.length s) (String.length input) then k s caps
      else None
  | Eol =>
      match s with
      | EmptyString => k s caps
      | String _ _ => None
      end
  | Lit p =>
      match stripPrefix p s with
      | Some s' => k s' caps
      | None => None
      end
  | Opt r' =>
      match run input r' s caps k with
      | Some c => Some c
      | None => k s caps
      end
  | Plus cs => plus cs (fun s' => k s' caps) s
  | Group r' =>
      run input r' s caps
        (fun s' caps' =>
           k s' (caps' ++ [Str.take (String.length s - String.length s') s])%list)
  | Seq r1 r2 => run input r1 s caps (fun s' caps' => run input r2 s' caps' k)
  end.

(** A match attempt at every start index from the position of [s] on. *)
Fixpoint execFrom (input : string) (r : regex) (s : string)
  : option captures :=
  match run input r s [] (fun _ caps => Some caps) with
  | Some caps => Some caps
  | None =>
      match s with
      | String _ s' => execFrom input r s'
      | EmptyString => None
      end
  end.

(** [input.match(r)] for a regex without flags: the captures of the leftmost
    match, or [None] for [null]. *)
Definition exec (r : regex) (input : string) : option captures :=
  execFrom input r input.

End Regex.

Declare Scope regex_scope.
Delimit Scope regex_scope with re.
Infix "+++" := Regex.Seq (at level 60, right associativity) : regex_scope.

(* ------------------------------------------------------------------ *)
(** ** What [github.ts] imports and is not among the sources *)

Module Env.

(** What [fetchFileContent] resolves to when the file exists. *)
Record FileContent : Type := mkFileContent {
  content : string;
  encoding : string;
  size : Z
}.

(** [lib/review-config.ts].  A skip pattern is a regular expression used
    through [p.test(filename)] only, here the predicate it decides (a pattern
    without the [g] or [y] flag, whose [test] keeps no state). *)
Record ReviewConfig : Type := mkReviewConfig {
  SKIP_PATTERNS : list (string -> bool);
  MAX_PATCH_CHARS_PER_FILE : Z;
  MAX_CONTENT_CHARS_PER_FILE : Z
}.

(** The network side of [lib/github.ts]: what each request answers, or the
    error it rejects with. *)
Record GitHub : Type := mkGitHub {
  (* githubFetch(`/repos/o/r/pulls/n`, 'application/vnd.github.diff'), then
     response.text() *)
  fetchDiffText : string -> string -> Z -> Result string;
  fetchAllPRFiles : string -> string -> Z -> Result (list Schemas.ChangedFile);
  (* null when the file or the ref is not found *)
  fetchFileContent :
    string -> string -> string -> string -> Result (option FileContent)
}.

End Env.

(* ------------------------------------------------------------------ *)
(** ** [tools/github.ts] *)

Module Tools.

Import Schemas.

(** *** 1. parseGitHubPRUrl *)

(** [/^https?:\/\/github\.com\/([^/]+)\/([^/]+)\/pull\/(\d+)\/?$/] *)
Definition PR_URL_RE : Regex.regex :=
  (Regex.Bol +++ Regex.Lit "http" +++ Regex.Opt (Regex.Lit "s")
   +++ Regex.Lit "://github.com/"
   +++ Regex.Group (Regex.Plus (Regex.CsNot "/")) +++ Regex.Lit "/"
   +++ Regex.Group (Regex.Plus (Regex.CsNot "/")) +++ Regex.Lit "/pull/"
   +++ Regex.Group (Regex.Plus Regex.CsDigit)
   +++ Regex.Opt (Regex.Lit "/") +++ Regex.Eol)%re.

(** The value of a decimal digit. *)
Definition digitValue (c : ascii) : Z := Z.of_N (N_of_ascii c) - 48.

(** The number read from the leading decimal digits of [s], after [acc]. *)
Fixpoint parseDigits (acc : Z) (s : string) : Z :=
  match s with
  | String c s' =>
      if Regex.isDigit c then parseDigits (10 * acc + digitValue c) s'
      else acc
  | EmptyString => acc
  end.

(** A JavaScript number as [parseInt] can return it: [NaN], [Infinity], or
    a finite double, which for [parseInt] is always an integer: [Finite z] is
    the double whose value is [z]. *)
Inductive Number : Type :=
| NaN
| Infinity
| Finite (z : Z).

(** The Number value of the integer [v >= 0]: the double nearest to [v],
    ties going to the even significand, [Infinity] from [2^1024 - 2^970] on.
    Below [2^53] every integer is a double.  From there on a double has 53
    significant bits: [e] bits are cut off, [q] holds the bits kept and
    [rest] the bits cut. *)
Definition roundToDouble (v : Z) : Number :=
  if v <? 2 ^ 53 then Finite v
  else
    let e := Z.log2 v - 52 in
    let q := v / 2 ^ e in
    let rest := v mod 2 ^ e in
    let half := 2 ^ (e - 1) in
    let m :=
      if rest <? half then q
      else if half <? rest then q + 1
      else if Z.even q then q else q + 1 in
    if 2 ^ 1024 <=? m * 2 ^ e then Infinity else Finite (m * 2 ^ e).

(** [parseInt(s, 10)] on a string that starts with a digit or is empty: the
    Number value of the integer its leading digits denote, [NaN] without a
    leading digit.  (White space and signs, which [parseInt] also accepts in
    front, cannot occur in a capture of [\d+].  ECMAScript lets an engine
    read the digits after the 20th as zeros; V8, the engine of the Node.js
    the README asks for, rounds the exact value.) *)
Definition parseInt10 (s : string) : Number :=
  match s with
  | String c _ =>
      if Regex.isDigit c then roundToDouble (parseDigits 0 s) else NaN
  | EmptyString => NaN
  end.

(** A number is not negative; [NaN] is not. *)
Definition nonNegative (n : Number) : Prop :=
  match n with
  | NaN => False
  | Infinity => True
  | Finite z => 0 <= z
  end.

Definition dquote : string := String "034"%char EmptyString.

(** The message of the error thrown for a URL that does not match. *)
Definition invalidUrlMessage (url : string) : string :=
  "Invalid GitHub PR URL: " ++ dquote ++ url ++ dquote
  ++ ". Expected format: https://github.com/owner/repo/pull/123".

(** The object [parseGitHubPRUrl] returns: the fields of
    [prIdentifierSchema], the pull number being the number [parseInt]
    gave. *)
Record ParsedUrl : Type := mkParsedUrl {
  owner : string;
  repo : string;
  pullNumber : Number
}.

(** [parseGitHubPRUrl.execute].  [m] holds [match[1]], [match[2]] and
    [match[3]]. *)
Definition parseGitHubPRUrl (url : string) : Run ParsedUrl :=
  match Regex.exec PR_URL_RE url with
  | None => throw (invalidUrlMessage url)
  | Some m =>
      ret (mkParsedUrl (nth 0 m EmptyString) (nth 1 m EmptyString)
             (parseInt10 (nth 2 m EmptyString)))
  end.

(** *** 3. getPullRequestDiff *)

Definition MAX_DIFF_CHARS : Z := 80000.

Record DiffResult : Type := mkDiffResult {
  diff : string;
  truncated : bool
}.

(** The object [getPullRequestDiff] returns for the fetched text [diff]. *)
Definition diffResult (diff : string) : DiffResult :=
  if Str.len diff >? MAX_DIFF_CHARS then
    mkDiffResult (Lib.truncate diff MAX_DIFF_CHARS) true
  else mkDiffResult diff false.

(** [getPullRequestDiff.execute] *)
Definition getPullRequestDiff (gh : Env.GitHub) (input : PRIdentifier)
  : Run DiffResult :=
  let '(mkPRIdentifier owner repo pullNumber) := input in
  diff <- await (GetDiff owner repo pullNumber)
                (Env.fetchDiffText gh owner repo pullNumber) ;;
  ret (diffResult diff).

(** *** 4. getPullRequestFiles *)

Definition FILES_PER_PAGE : Z := 30.

(** The index [Array.prototype.slice] starts or ends at, for the argument
    [i] on an array of length [n]: a negative argument counts from the end. *)
Definition relativeIndex (n i : Z) : Z :=
  if i <? 0 then Z.max (n + i) 0 else Z.min i n.

(** [l.slice(start, fin)] *)
Definition slice {A : Type} (l : list A) (start fin : Z) : list A :=
  let n := Z.of_nat (List.length l) in
  let k := relativeIndex n start in
  let final := relativeIndex n fin in
  firstn (Z.to_nat (final - k)) (skipn (Z.to_nat k) l).

(** [SKIP_PATTERNS.some((p) => p.test(name))] *)
Definition matchesSkipPattern (cfg : Env.ReviewConfig) (name : string) : bool :=
  existsb (fun p => p name) (Env.SKIP_PATTERNS cfg).

(** [allFiles.filter((f) => !SKIP_PATTERNS.some((p) => p.test(f.filename)))] *)
Definition reviewableFiles (cfg : Env.ReviewConfig) (allFiles : list ChangedFile)
  : list ChangedFile :=
  filter (fun f => negb (matchesSkipPattern cfg (filename f))) allFiles.

(** [{ ...f, ...(f.patch ? { patch: truncate(f.patch, MAX) } : {}) }] *)
Definition budgetPatch (cfg : Env.ReviewConfig) (f : ChangedFile) : ChangedFile :=
  match patch f with
  | Some p =>
      if Str.truthy p then
        mkChangedFile (filename f) (status f) (additions f) (deletions f)
          (changes f)
          (Some (Lib.truncate p (Env.MAX_PATCH_CHARS_PER_FILE cfg)))
      else f
  | None => f
  end.

Record FilesResult : Type := mkFilesResult {
  files : list ChangedFile;
  totalFiles : Z;
  reviewableCount : Z;
  hasMore : bool;
  page : Z
}.

(** The object [getPullRequestFiles] returns once the file list is there. *)
Definition filesPage (cfg : Env.ReviewConfig) (allFiles : list ChangedFile)
  (page : Z) : FilesResult :=
  let reviewable := reviewableFiles cfg allFiles in
  let start := (page - 1) * FILES_PER_PAGE in
  let pageFiles :=
    map (budgetPatch cfg) (slice reviewable start (start + FILES_PER_PAGE)) in
  mkFilesResult pageFiles
    (Z.of_nat (List.length allFiles))
    (Z.of_nat (List.length pageFiles))
    (start + FILES_PER_PAGE <? Z.of_nat (List.length reviewable))
    page.

(** [getPullRequestFiles.execute]; [page] is the input after its default. *)
Definition getPullRequestFiles (cfg : Env.ReviewConfig) (gh : Env.GitHub)
  (input : PRIdentifier) (page : Z) : Run FilesResult :=
  let '(mkPRIdentifier owner repo pullNumber) := input in
  allFiles <- await (GetFiles owner repo pullNumber)
                    (Env.fetchAllPRFiles gh owner repo pullNumber) ;;
  ret (filesPage cfg allFiles page).

(** *** 5. getFileContent *)

Record ContentResult : Type := mkContentResult {
  content : option string;
  encoding : string;
  size : Z
}.

(** The object [getFileContent] returns for what [fetchFileContent]
    resolved to. *)
Definition contentResult (cfg : Env.ReviewConfig)
  (result : option Env.FileContent) : ContentResult :=
  match result with
  | None => mkContentResult None "utf-8" 0
  | Some r =>
      mkContentResult
        (Some (Lib.truncate (Env.content r)
                 (Env.MAX_CONTENT_CHARS_PER_FILE cfg)))
        (Env.encoding r) (Env.size r)
  end.

(** [getFileContent.execute] *)
Definition getFileContent (cfg : Env.ReviewConfig) (gh : Env.GitHub)
  (owner repo path ref : string) : Run ContentResult :=
  result <- await (GetContent owner repo path ref)
                  (Env.fetchFileContent gh owner repo path ref) ;;
  ret (contentResult cfg result).

End Tools.

(* ------------------------------------------------------------------ *)
(** ** The finding aggregator *)

Module Aggregator.

Import Schemas.

(** Modelled from the spec: section 3, a finding is an issue of
    [fileReviewSchema] with its owning filename. *)
Record Finding : Type := mkFinding {
  findingFile : string;
  findingIssue : Issue
}.

(** Modelled from the spec: section 6, what [summarizeFindings] answers:
    [{summary, qualityScore, verdict}]. *)
Record Summary : Type := mkSummary {
  summaryText : string;
  score : Z;
  summaryVerdict : Verdict
}.

(** Modelled from the spec: the collaborators and tunables of section 4.6
    that the spec leaves open. *)
Record Collaborators : Type := mkCollaborators {
  (* the similarity of two messages *)
  nearIdentical : string -> string -> bool;
  (* how a finding is written into a bucket of strings *)
  render : Finding -> string;
  (* summarizeFindings, the PR context fixed *)
  summarizeFindings : list Finding -> Summary;
  (* the note that records an overridden verdict *)
  overrideNote : string
}.

Definition severityRank (s : Severity) : Z :=
  match s with
  | critical => 3
  | warning => 2
  | suggestion => 1
  | positive => 0
  end.

Definition isCritical (f : Finding) : bool :=
  match severity (findingIssue f) with
  | critical => true
  | _ => false
  end.

Definition categoryEqb (a b : Category) : bool :=
  match a, b with
  | bug, bug | security, security | performance, performance
  | style, style | quality, quality
  | positiveCategory, positiveCategory => true
  | _, _ => false
  end.

Definition hasCategory (c : Category) (f : Finding) : bool :=
  categoryEqb (category (findingIssue f)) c.

(** Modelled from the spec: the workflow step that aggregates findings is not
    among the sources.  Section 4.6, step 1: flatten all per-file findings
    into one list, preserving filename provenance. *)
Definition flatten (reviews : list FileReview) : list Finding :=
  flat_map (fun fr => map (mkFinding (reviewedFile fr)) (issues fr)) reviews.

(** Modelled from the spec: section 4.6, step 2: two findings are duplicates
    if they share filename, category, and a near-identical message. *)
Definition duplicate (ext : Collaborators) (a b : Finding) : bool :=
  String.eqb (findingFile a) (findingFile b)
  && categoryEqb (category (findingIssue a)) (category (findingIssue b))
  && nearIdentical ext (message (findingIssue a)) (message (findingIssue b)).

(** Modelled from the spec: section 4.6, step 2: of two duplicates keep the
    higher-severity instance. *)
Fixpoint insertFinding (ext : Collaborators) (f : Finding)
  (kept : list Finding) : list Finding :=
  match kept with
  | [] => [f]
  | g :: rest =>
      if duplicate ext g f then
        (if severityRank (severity (findingIssue g))
            <? severityRank (severity (findingIssue f))
         then f else g) :: rest
      else g :: insertFinding ext f rest
  end.

(** Modelled from the spec: section 4.6, step 2, over the whole list. *)
Definition dedup (ext : Collaborators) (fs : list Finding) : list Finding :=
  fold_left (fun kept f => insertFinding ext f kept) fs [].

(** Modelled from the spec: section 4.6, step 4: [APPROVE] is not permitted
    when criticalIssues is non-empty; the aggregator downgrades it to
    [REQUEST_CHANGES] and notes the override. *)
Definition enforceVerdict (ext : Collaborators) (criticals : list string)
  (s : Summary) : string * Verdict :=
  match summaryVerdict s, criticals with
  | APPROVE, _ :: _ =>
      (summaryText s ++ overrideNote ext, REQUEST_CHANGES)
  | v, _ => (summaryText s, v)
  end.

(** Modelled from the spec: section 4.6, [aggregate(allFileReviews,
    skippedFiles) -> AggregatedReview], steps 1 to 5: severity [critical]
    goes to criticalIssues regardless of category, category [positive] to
    positiveNotes regardless of severity. *)
Definition aggregate (ext : Collaborators) (allFileReviews : list FileReview)
  (skipped : list string) : ReviewOutput :=
  let deduped := dedup ext (flatten allFileReviews) in
  let bucket (p : Finding -> bool) := map (render ext) (filter p deduped) in
  let criticals := bucket isCritical in
  let s := summarizeFindings ext deduped in
  let '(text, v) := enforceVerdict ext criticals s in
  mkReviewOutput text (score s) v
    criticals
    (bucket (hasCategory security))
    (bucket (hasCategory performance))
    (bucket (fun f =>
       negb (isCritical f) && negb (hasCategory security f)
       && negb (hasCategory performance f)
       && negb (hasCategory positiveCategory f)))
    (bucket (hasCategory positiveCategory))
    (map (fun fr =>
            mkFileReview (reviewedFile fr)
              (map findingIssue
                 (filter (fun f => String.eqb (findingFile f) (reviewedFile fr))
                    deduped)))
         allFileReviews)
    skipped.

End Aggregator.

(* ------------------------------------------------------------------ *)
(** ** The statements of the specification, in its words *)

Module Spec.

Import Schemas.

(** Section 4.1: a file is skipped if its path matches any configured skip
    pattern, or if its status is "removed" and its deletion count is below a
    small configured threshold. *)
Definition skips (cfg : Env.ReviewConfig) (threshold : Z) (f : ChangedFile)
  : bool :=
  Tools.matchesSkipPattern cfg (filename f)
  || (String.eqb (status f) "removed" && (deletions f <? threshold)).

(** The fetched files that the filter of [getPullRequestFiles] leaves out, by
    filename: those its own predicate rejects.  The tool does not return
    this list; it returns the files it kept and [totalFiles].  (This is not
    the [skipped] output of section 4.1, whose rule also reads the status and
    the deletions; that one is [Partition.skippedBySpec].) *)
Definition skippedFiles (cfg : Env.ReviewConfig) (allFiles : list ChangedFile)
  : list string :=
  map filename
    (filter (fun f => Tools.matchesSkipPattern cfg (filename f)) allFiles).

(** Section 4.2: the result of an operation distinguishes "fit within
    budget" from "was cut": some reading of the result alone tells, for
    every input, whether its text was cut. *)
Definition truncationObservable {I O : Type} (operation : I -> O)
  (wasCut : I -> bool) : Prop :=
  exists flag : O -> bool, forall i : I, flag (operation i) = wasCut i.

(** A text is cut when it is longer than the budget. *)
Definition overBudget (budget : Z) (text : string) : bool :=
  budget <? Str.len text.

(** A segment of a URL path: not empty, no slash. *)
Definition isSegment (s : string) : Prop :=
  s <> "" /\ Str.all (fun c => negb (Ascii.eqb c "/")) s = true.

(** A non-empty run of decimal digits. *)
Definition isDigits (s : string) : Prop :=
  s <> "" /\ Str.all Regex.isDigit s = true.

(** [url] is [scheme://github.com/owner/repo/pull/digits], optionally with a
    trailing slash, for one of the [schemes]. *)
Definition isPRUrl (schemes : list string) (url owner repo digits : string)
  : Prop :=
  exists scheme tail,
    In scheme schemes /\ (tail = "" \/ tail = "/")
    /\ isSegment owner /\ isSegment repo /\ isDigits digits
    /\ url = scheme ++ "://github.com/" ++ owner ++ "/" ++ repo
             ++ "/pull/" ++ digits ++ tail.

(** The number a run of decimal digits denotes. *)
Definition decimalValue (digits : string) : Z :=
  fold_left (fun acc c => 10 * acc + Tools.digitValue c)
    (list_ascii_of_string digits) 0.

(** [l1] is [l2] with some elements left out: the elements of [l1] occur in
    [l2] in the same relative order. *)
Inductive Subsequence {A : Type} : list A -> list A -> Prop :=
| sub_nil : Subsequence [] []
| sub_skip (x : A) (l1 l2 : list A) :
    Subsequence l1 l2 -> Subsequence l1 (x :: l2)
| sub_keep (x : A) (l1 l2 : list A) :
    Subsequence l1 l2 -> Subsequence (x :: l1) (x :: l2).

End Spec.

(* ------------------------------------------------------------------ *)
(** ** The match of [PR_URL_RE], read off without backtracking *)

Module UrlMatch.

Definition notSlash (c : ascii) : bool := negb (Ascii.eqb c "/").

(** What [PR_URL_RE] matches after the scheme: the literal host, two
    segments, [/pull/], digits, and an optional slash before the end. *)
Definition matchPath (s : string) : option Regex.captures :=
  match Regex.stripPrefix "://github.com/" s with
  | None => None
  | Some s1 =>
      match Str.span notSlash s1 with
      | (EmptyString, _) => None
      | (o, s2) =>
          match Regex.stripPrefix "/" s2 with
          | None => None
          | Some s3 =>
              match Str.span notSlash s3 with
              | (EmptyString, _) => None
              | (r, s4) =>
                  match Regex.stripPrefix "/pull/" s4 with
                  | None => None
                  | Some s5 =>
                      match Str.span Regex.isDigit s5 with
                      | (EmptyString, _) => None
                      | (d, s6) =>
                          if String.eqb s6 "" || String.eqb s6 "/"
                          then Some [o; r; d]
                          else None
                      end
                  end
              end
          end
      end
  end.

(** The whole match: [http], an optional [s] (tried first), then the path. *)
Definition matchUrl (url : string) : option Regex.captures :=
  match Regex.stripPrefix "http" url with
  | None => None
  | Some s1 =>
      match
        match Regex.stripPrefix "s" s1 with
        | Some s2 => matchPath s2
        | None => None
        end
      with
      | Some caps => Some caps
      | None => matchPath s1
      end
  end.

End UrlMatch.

(* ------------------------------------------------------------------ *)
(** ** Sample configurations and inputs *)

Module Sample.

Import Schemas.

(** Scenario A's pattern [*lock.json] and Scenario D's patch budget. *)
Definition config : Env.ReviewConfig :=
  Env.mkReviewConfig [Str.endsWith "lock.json"] 20000 30000.

Definition file (name st : string) (dels : Z) (p : option string)
  : ChangedFile :=
  mkChangedFile name st 0 dels dels p.

Definition lockFile : ChangedFile :=
  file "package-lock.json" "modified" 0 None.

Definition sourceFile : ChangedFile :=
  file "src/a.ts" "modified" 0 (Some "@@ -1 +1 @@").

(** A removed file with two deleted lines. *)
Definition removedFile : ChangedFile :=
  file "src/old.ts" "removed" 2 None.

(** [n] files with distinct names: the file at index [i] is named by [i]
    letters [f] and the extension [.ts]. *)
Fixpoint numbered (n : nat) : list ChangedFile :=
  match n with
  | O => []
  | S n' =>
      (numbered n' ++
        [file (Str.replicate (N.of_nat n') "f" ++ ".ts") "added" 0
           (Some "+x")])%list
  end.

(** A GitHub that answers every request with the given values. *)
Definition github (diffText : string) (allFiles : list ChangedFile)
  (fc : option Env.FileContent) : Env.GitHub :=
  Env.mkGitHub (fun _ _ _ => Ok diffText) (fun _ _ _ => Ok allFiles)
    (fun _ _ _ _ => Ok fc).

Definition pr : PRIdentifier := mkPRIdentifier "owner" "repo" 123.

(** A summarizer that approves whatever it is given, next to an exact
    comparison of messages. *)
Definition approving : Aggregator.Collaborators :=
  Aggregator.mkCollaborators String.eqb
    (fun f => Aggregator.findingFile f ++ ": "
              ++ message (Aggregator.findingIssue f))
    (fun _ => Aggregator.mkSummary "Looks good." 9 APPROVE)
    " [verdict overridden: critical issues present]".

(** One file with a critical bug, reported twice, and a style remark. *)
Definition reviews : list FileReview :=
  [mkFileReview "src/a.ts"
     [mkIssue warning bug (Some "12") "missing null check on x";
      mkIssue critical bug (Some "12") "missing null check on x";
      mkIssue suggestion style None "prefer const"]].

End Sample.

(* ------------------------------------------------------------------ *)
(** ** Reading the pages one after the other *)

Module Paging.

Import Schemas.

(** The files of the pages 1 to [k] of [getPullRequestFiles], in page order:
    what a caller holds after asking for one page after the other. *)
Fixpoint pagesUpTo (cfg : Env.ReviewConfig) (allFiles : list ChangedFile)
  (k : nat) : list ChangedFile :=
  match k with
  | O => []
  | S k' =>
      (pagesUpTo cfg allFiles k'
       ++ Tools.files (Tools.filesPage cfg allFiles (Z.of_nat (S k'))))%list
  end.

(** The length of the patch of a file, 0 when it has none. *)
Definition patchChars (f : ChangedFile) : Z :=
  match patch f with
  | Some p => Str.len p
  | None => 0
  end.

(** The characters of all patches of a list of files. *)
Definition totalPatchChars (l : list ChangedFile) : Z :=
  fold_right (fun f acc => patchChars f + acc) 0 l.

(** The configuration [cfg] with one more skip pattern. *)
Definition withPattern (p : string -> bool) (cfg : Env.ReviewConfig)
  : Env.ReviewConfig :=
  Env.mkReviewConfig (p :: Env.SKIP_PATTERNS cfg)
    (Env.MAX_PATCH_CHARS_PER_FILE cfg) (Env.MAX_CONTENT_CHARS_PER_FILE cfg).

End Paging.

(* ------------------------------------------------------------------ *)
(** ** The partition of section 4.1, and what the tool reports of it *)

Module Partition.

Import Schemas.





End Partition.

(* ================================================================== *)
(** * Properties *)

(* ------------------------------------------------------------------ *)
(** ** Facts about strings *)

Module StrFacts.

Lemma length_append (a b : string) :
  String.length (a ++ b) = (String.length a + String.length b)%nat.
Proof. induction a as [|c a IH]; simpl; [reflexivity | now rewrite IH]. Qed.

Lemma append_empty_r (a : string) : a ++ "" = a.
Proof. induction a as [|c a IH]; simpl; [reflexivity | now rewrite IH]. Qed.

Lemma append_assoc (a b c : string) : (a ++ b) ++ c = a ++ b ++ c.
Proof. induction a as [|x a IH]; simpl; [reflexivity | now rewrite IH]. Qed.

Lemma take_length (n : nat) (s : string) :
  String.length (Str.take n s) = Nat.min n (String.length s).
Proof.
  revert s; induction n as [|n IH]; intros [|c s]; simpl; try reflexivity.
  now rewrite IH.
Qed.

Lemma take_all (n : nat) (s : string) :
  (String.length s <= n)%nat -> Str.take n s = s.
Proof.
  revert s; induction n as [|n IH]; intros [|c s]; simpl; intros Hle;
    try reflexivity; try lia.
  f_equal; apply IH; lia.
Qed.

Lemma take_drop (n : nat) (s : string) : Str.take n s ++ Str.drop n s = s.
Proof.
  revert s; induction n as [|n IH]; intros [|c s]; simpl; try reflexivity.
  now rewrite IH.
Qed.

Lemma take_isPrefix (n : nat) (s : string) : Str.isPrefix (Str.take n s) s.
Proof. exists (Str.drop n s); symmetry; apply take_drop. Qed.

Lemma take_append (a b : string) : Str.take (String.length a) (a ++ b) = a.
Proof. induction a as [|c a IH]; simpl; [now destruct b | now rewrite IH]. Qed.

Lemma isPrefix_refl (s : string) : Str.isPrefix s s.
Proof. exists ""; symmetry; apply append_empty_r. Qed.

Lemma len_nonneg (s : string) : 0 <= Str.len s.
Proof. unfold Str.len; lia. Qed.

Lemma len_take (n : Z) (s : string) :
  0 <= n -> Str.len (Str.take (Z.to_nat n) s) = Z.min n (Str.len s).
Proof. intros Hn; unfold Str.len; rewrite take_length; lia. Qed.

Lemma replicate_succ (n : N) (c : ascii) :
  Str.replicate (N.succ n) c = String c (Str.replicate n c).
Proof. unfold Str.replicate; now rewrite N.iter_succ. Qed.

Lemma len_replicate (n : N) (c : ascii) : Str.len (Str.replicate n c) = Z.of_N n.
Proof.
  induction n as [|n IH] using N.peano_ind; [reflexivity|].
  rewrite replicate_succ; unfold Str.len in *; simpl String.length; lia.
Qed.

Lemma take_replicate (n m : N) (c : ascii) :
  Str.take (N.to_nat n) (Str.replicate (n + m) c) = Str.replicate n c.
Proof.
  induction n as [|n IH] using N.peano_ind; [reflexivity|].
  rewrite N.add_succ_l, !replicate_succ, N2Nat.inj_succ; simpl.
  now rewrite IH.
Qed.

End StrFacts.

(* ------------------------------------------------------------------ *)
(** ** The content budgeter *)

Module TruncateFacts.

Import StrFacts.

Lemma truncate_fits (text : string) (maxChars : Z) :
  Str.len text <= maxChars -> Lib.truncate text maxChars = text.
Proof.
  intros Hle; unfold Lib.truncate.
  now destruct (Z.leb_spec (Str.len text) maxChars); [|lia].
Qed.

Lemma truncate_cut (text : string) (maxChars : Z) :
  maxChars < Str.len text ->
  Lib.truncate text maxChars = Str.take (Z.to_nat maxChars) text.
Proof.
  intros Hlt; unfold Lib.truncate.
  now destruct (Z.leb_spec (Str.len text) maxChars); [lia|].
Qed.

Lemma truncate_len_cut (text : string) (maxChars : Z) :
  0 <= maxChars -> maxChars < Str.len text ->
  Str.len (Lib.truncate text maxChars) = maxChars.
Proof.
  intros H0 Hlt; rewrite truncate_cut by assumption.
  rewrite len_take by assumption; lia.
Qed.

Lemma truncate_len_le (text : string) (maxChars : Z) :
  0 <= maxChars -> Str.len (Lib.truncate text maxChars) <= maxChars.
Proof.
  intros H0; destruct (Z.le_gt_cases (Str.len text) maxChars) as [Hle|Hgt].
  - now rewrite truncate_fits.
  - rewrite truncate_len_cut; lia.
Qed.

Lemma truncate_isPrefix (text : string) (maxChars : Z) :
  Str.isPrefix (Lib.truncate text maxChars) text.
Proof.
  unfold Lib.truncate; destruct (Str.len text <=? maxChars).
  - apply isPrefix_refl.
  - apply take_isPrefix.
Qed.

Lemma truncate_replicate (n m : N) (c : ascii) :
  Lib.truncate (Str.replicate (n + m) c) (Z.of_N n) = Str.replicate n c.
Proof.
  unfold Lib.truncate; rewrite len_replicate.
  destruct (Z.leb_spec (Z.of_N (n + m)) (Z.of_N n)) as [Hle|Hgt].
  - replace m with 0%N by lia; now rewrite N.add_0_r.
  - rewrite <- Z_N_nat, N2Z.id; apply take_replicate.
Qed.

(** C2 (truncation safety): for every text and every non-negative budget the
    truncated text is no longer than the budget; a text within the budget is
    returned unchanged; a text over the budget comes back with exactly the
    budget's length, so 50,000 characters under a budget of 20,000 give
    exactly 20,000. *)
Theorem truncate_safety (text : string) (maxChars : Z) (Hmax : 0 <= maxChars) :
  Str.len (Lib.truncate text maxChars) <= maxChars
  /\ (Str.len text <= maxChars -> Lib.truncate text maxChars = text)
  /\ (maxChars < Str.len text ->
      Str.len (Lib.truncate text maxChars) = maxChars)
  /\ (Str.len text = 50000 -> maxChars = 20000 ->
      Str.len (Lib.truncate text maxChars) = 20000).
Proof.
  repeat split.
  - now apply truncate_len_le.
  - apply truncate_fits.
  - now apply truncate_len_cut.
  - intros Hlen Hbudget; subst maxChars.
    apply truncate_len_cut; lia.
Qed.

(** Scenario D of the spec, and a short text that fits its budget. *)
Lemma truncate_safety_witness :
  Str.len (Str.replicate 50000 "x") = 50000
  /\ Str.len (Lib.truncate (Str.replicate 50000 "x") 20000) = 20000
  /\ Lib.truncate "abc" 5 = "abc".
Proof.
  assert (Hbig : Str.len (Str.replicate 50000 "x") = 50000)
    by apply len_replicate.
  split; [exact Hbig | split].
  - apply (truncate_safety (Str.replicate 50000 "x") 20000); [lia | exact Hbig | reflexivity].
  - apply (truncate_safety "abc" 5); [lia | vm_compute; discriminate].
Defined.

End TruncateFacts.

(* ------------------------------------------------------------------ *)
(** ** Lists: subsequences and slices *)

Module ListFacts.

Import Spec.

Lemma Subsequence_refl {A} (l : list A) : Subsequence l l.
Proof. induction l; constructor; assumption. Qed.

Lemma Subsequence_nil {A} (l : list A) : Subsequence [] l.
Proof. induction l; constructor; assumption. Qed.

Lemma Subsequence_trans {A} (l1 l2 l3 : list A) :
  Subsequence l1 l2 -> Subsequence l2 l3 -> Subsequence l1 l3.
Proof.
  intros H12 H23; revert l1 H12.
  induction H23 as [|x l2 l3 H IH|x l2 l3 H IH]; intros l1 H12.
  - assumption.
  - constructor; now apply IH.
  - inversion H12; subst.
    + constructor; now apply IH.
    + constructor; now apply IH.
Qed.

Lemma Subsequence_filter {A} (p : A -> bool) (l : list A) :
  Subsequence (filter p l) l.
Proof.
  induction l as [|x l IH]; simpl; [constructor|].
  destruct (p x); constructor; assumption.
Qed.

Lemma Subsequence_firstn {A} (n : nat) (l : list A) :
  Subsequence (firstn n l) l.
Proof.
  revert l; induction n as [|n IH]; intros [|x l]; simpl;
    try apply Subsequence_nil.
  constructor; apply IH.
Qed.

Lemma Subsequence_skipn {A} (n : nat) (l : list A) :
  Subsequence (skipn n l) l.
Proof.
  revert l; induction n as [|n IH]; intros [|x l]; simpl;
    try apply Subsequence_refl.
  constructor; apply IH.
Qed.

Lemma Subsequence_map {A B} (f : A -> B) (l1 l2 : list A) :
  Subsequence l1 l2 -> Subsequence (map f l1) (map f l2).
Proof. induction 1; simpl; constructor; assumption. Qed.

Lemma Subsequence_In {A} (l1 l2 : list A) (x : A) :
  Subsequence l1 l2 -> In x l1 -> In x l2.
Proof.
  induction 1 as [|y l1 l2 H IH|y l1 l2 H IH]; simpl; intros Hin.
  - assumption.
  - right; now apply IH.
  - destruct Hin as [->|Hin]; [now left | right; now apply IH].
Qed.

Lemma Subsequence_slice {A} (l : list A) (a b : Z) :
  Subsequence (Tools.slice l a b) l.
Proof.
  unfold Tools.slice.
  eapply Subsequence_trans; [apply Subsequence_firstn | apply Subsequence_skipn].
Qed.

Lemma filter_partition_length {A} (p : A -> bool) (l : list A) :
  (List.length (filter (fun x => negb (p x)) l) + List.length (filter p l)
   = List.length l)%nat.
Proof.
  induction l as [|x l IH]; simpl; [reflexivity|].
  destruct (p x); simpl; lia.
Qed.

(** A slice that starts at a non-negative index is the window of the list
    that starts there. *)
Lemma slice_window {A} (l : list A) (start width : Z) :
  0 <= start -> 0 <= width ->
  Tools.slice l start (start + width)
  = firstn (Z.to_nat width) (skipn (Z.to_nat start) l).
Proof.
  intros Hs Hw; unfold Tools.slice, Tools.relativeIndex.
  destruct (Z.ltb_spec start 0); [lia|].
  destruct (Z.ltb_spec (start + width) 0); [lia|].
  set (n := Z.of_nat (List.length l)).
  destruct (Z.le_gt_cases start n) as [Hin|Hout].
  - rewrite (Z.min_l start n) by assumption.
    destruct (Z.le_gt_cases (start + width) n) as [Hfit|Hlong].
    + rewrite Z.min_l by assumption. f_equal; lia.
    + rewrite Z.min_r by lia.
      rewrite !firstn_all2; try reflexivity;
        rewrite length_skipn; subst n; lia.
  - rewrite !Z.min_r by lia.
    replace (Z.to_nat (n - n)) with O by lia.
    rewrite (skipn_all2 (n := Z.to_nat start)) by (subst n; lia).
    now destruct (Z.to_nat width).
Qed.

End ListFacts.

(* ------------------------------------------------------------------ *)
(** ** getPullRequestFiles: filter, pages, patches *)

Module FilesFacts.

Import Schemas Tools ListFacts StrFacts.

Lemma reviewable_In (cfg : Env.ReviewConfig) (allFiles : list ChangedFile)
  (f : ChangedFile) :
  In f (reviewableFiles cfg allFiles)
  <-> In f allFiles /\ matchesSkipPattern cfg (filename f) = false.
Proof.
  unfold reviewableFiles; rewrite filter_In, negb_true_iff; reflexivity.
Qed.

Lemma skipped_In (cfg : Env.ReviewConfig) (allFiles : list ChangedFile)
  (name : string) :
  In name (Spec.skippedFiles cfg allFiles)
  <-> (exists f, In f allFiles /\ filename f = name)
      /\ matchesSkipPattern cfg name = true.
Proof.
  unfold Spec.skippedFiles; rewrite in_map_iff; split.
  - intros (f & Hname & Hin); apply filter_In in Hin as [Hin Hm].
    subst name; split; [now exists f | assumption].
  - intros [(f & Hin & Hname) Hm]; exists f; split; [assumption|].
    apply filter_In; subst name; now split.
Qed.

Lemma getPullRequestFiles_ok (cfg : Env.ReviewConfig) (gh : Env.GitHub)
  (o r : string) (n page : Z) (allFiles : list ChangedFile) :
  Env.fetchAllPRFiles gh o r n = Ok allFiles ->
  getPullRequestFiles cfg gh (mkPRIdentifier o r n) page
  = mkRun [GetFiles o r n] (Ok (filesPage cfg allFiles page)).
Proof.
  intros Hfetch; unfold getPullRequestFiles, bind, await; simpl.
  rewrite Hfetch; reflexivity.
Qed.

(** What [budgetPatch] leaves alone and what it may change. *)
Lemma budgetPatch_frame (cfg : Env.ReviewConfig) (f : ChangedFile) :
  filename (budgetPatch cfg f) = filename f
  /\ status (budgetPatch cfg f) = status f
  /\ additions (budgetPatch cfg f) = additions f
  /\ deletions (budgetPatch cfg f) = deletions f
  /\ changes (budgetPatch cfg f) = changes f
  /\ (patch (budgetPatch cfg f) = None <-> patch f = None)
  /\ (forall q, patch (budgetPatch cfg f) = Some q ->
      exists p, patch f = Some p
        /\ (q = p \/ q = Lib.truncate p (Env.MAX_PATCH_CHARS_PER_FILE cfg))
        /\ Str.isPrefix q p).
Proof.
  unfold budgetPatch; destruct (patch f) as [p|] eqn:Hp.
  - destruct (Str.truthy p); simpl; rewrite ?Hp; repeat split;
      try discriminate.
    + intros q [= <-]; exists p; repeat split; [now right|].
      apply TruncateFacts.truncate_isPrefix.
    + intros q [= <-]; exists p; repeat split; [now left|].
      apply isPrefix_refl.
  - rewrite Hp; repeat split; try reflexivity; discriminate.
Qed.

(** C1, as the code has it: the filter of [getPullRequestFiles] skips a
    fetched file exactly when its path matches one of the configured skip
    patterns; every other fetched file is reviewable.  The status and the
    deletion count of the file play no part: fetched files of the same name
    are kept or skipped together. *)
Theorem filter_skips_exactly_pattern_matches (cfg : Env.ReviewConfig)
  (allFiles : list ChangedFile) (f : ChangedFile) (Hin : In f allFiles) :
  (~ In f (reviewableFiles cfg allFiles)
   <-> exists p, In p (Env.SKIP_PATTERNS cfg) /\ p (filename f) = true)
  /\ (In f (reviewableFiles cfg allFiles)
      <-> ~ exists p, In p (Env.SKIP_PATTERNS cfg) /\ p (filename f) = true)
  /\ (forall g, In g allFiles -> filename g = filename f ->
      (In g (reviewableFiles cfg allFiles)
       <-> In f (reviewableFiles cfg allFiles))).
Proof.
  assert (Hex : matchesSkipPattern cfg (filename f) = true
                <-> exists p, In p (Env.SKIP_PATTERNS cfg)
                              /\ p (filename f) = true)
    by apply existsb_exists.
  pose proof (reviewable_In cfg allFiles f) as Hrev.
  destruct (matchesSkipPattern cfg (filename f)) eqn:Hm.
  - assert (Hp : exists p, In p (Env.SKIP_PATTERNS cfg)
                           /\ p (filename f) = true) by now apply Hex.
    assert (Hout : ~ In f (reviewableFiles cfg allFiles)).
    { intros H; apply Hrev in H as [_ H]; discriminate H. }
    repeat split; try tauto.
    + intros Hg; apply reviewable_In in Hg as [_ Hg]; congruence.
  - assert (Hnp : ~ exists p, In p (Env.SKIP_PATTERNS cfg)
                              /\ p (filename f) = true).
    { intros H; apply Hex in H; discriminate H. }
    assert (Hkept : In f (reviewableFiles cfg allFiles)) by now apply Hrev.
    repeat split; try tauto.
    intros _; apply reviewable_In; split; [assumption | congruence].
Qed.

(** Scenario A: of [package-lock.json] and [src/a.ts] under the pattern
    [*lock.json], the first is skipped and the second is the reviewable
    list. *)
Lemma filter_skips_exactly_pattern_matches_witness :
  ~ In Sample.lockFile
      (reviewableFiles Sample.config [Sample.lockFile; Sample.sourceFile])
  /\ reviewableFiles Sample.config [Sample.lockFile; Sample.sourceFile]
     = [Sample.sourceFile].
Proof.
  split; [|reflexivity].
  apply (filter_skips_exactly_pattern_matches Sample.config
           [Sample.lockFile; Sample.sourceFile] Sample.lockFile).
  - now left.
  - exists (Str.endsWith "lock.json"); split; [now left | reflexivity].
Defined.

(** C1 as the spec words it fails: a removed file with 2 deleted lines, under
    any threshold above 2 (here 5), is skipped by the spec's rule and kept by
    the filter, so it is on the page the tool returns. *)
Lemma filter_keeps_small_removed_file :
  Spec.skips Sample.config 5 Sample.removedFile = true
  /\ In Sample.removedFile
       (reviewableFiles Sample.config [Sample.lockFile; Sample.removedFile])
  /\ files (filesPage Sample.config [Sample.lockFile; Sample.removedFile] 1)
     = [Sample.removedFile].
Proof.
  split; [reflexivity | split; [|reflexivity]].
  simpl; now left.
Qed.

(** The files the filter keeps and the files it leaves out number together
    as many as the fetched files, which is the [totalFiles] the tool reports;
    no filename is on both sides; every fetched file is on one of them. *)
Theorem filter_partitions_input (cfg : Env.ReviewConfig)
  (allFiles : list ChangedFile) (page : Z) :
  (List.length (reviewableFiles cfg allFiles)
   + List.length (Spec.skippedFiles cfg allFiles) = List.length allFiles)%nat
  /\ totalFiles (filesPage cfg allFiles page)
     = Z.of_nat (List.length (reviewableFiles cfg allFiles))
       + Z.of_nat (List.length (Spec.skippedFiles cfg allFiles))
  /\ (forall name,
        ~ (In name (map filename (reviewableFiles cfg allFiles))
           /\ In name (Spec.skippedFiles cfg allFiles)))
  /\ (forall f, In f allFiles ->
        In f (reviewableFiles cfg allFiles)
        \/ In (filename f) (Spec.skippedFiles cfg allFiles)).
Proof.
  assert (Hcount : (List.length (reviewableFiles cfg allFiles)
                    + List.length (Spec.skippedFiles cfg allFiles)
                    = List.length allFiles)%nat).
  { unfold reviewableFiles, Spec.skippedFiles; rewrite length_map.
    apply (filter_partition_length
             (fun f => matchesSkipPattern cfg (filename f))). }
  repeat split.
  - exact Hcount.
  - simpl; lia.
  - intros name [Hr Hs].
    apply in_map_iff in Hr as (f & Hname & Hf).
    apply reviewable_In in Hf as [_ Hm].
    apply skipped_In in Hs as [_ Hm']; congruence.
  - intros f Hin.
    destruct (matchesSkipPattern cfg (filename f)) eqn:Hm.
    + right; apply skipped_In; split; [now exists f | assumption].
    + left; now apply reviewable_In.
Qed.

(** C8 (stable partition): the reviewable files are the fetched files with
    some left out, so they come in the order of the input; the same holds for
    the filenames of any page the tool returns. *)
Theorem reviewable_order_preserved (cfg : Env.ReviewConfig)
  (allFiles : list ChangedFile) (page : Z) :
  Spec.Subsequence (reviewableFiles cfg allFiles) allFiles
  /\ Spec.Subsequence (map filename (files (filesPage cfg allFiles page)))
       (map filename allFiles).
Proof.
  split; [apply Subsequence_filter|].
  simpl; rewrite map_map.
  erewrite map_ext; [|intros f; apply (budgetPatch_frame cfg f)].
  apply Subsequence_map.
  eapply Subsequence_trans; [apply Subsequence_slice | apply Subsequence_filter].
Qed.

End FilesFacts.

Module PageFacts.

Import Schemas Tools ListFacts StrFacts FilesFacts.

(** The page [p >= 1] is the window of 30 reviewable files that starts at
    index [(p - 1) * 30]. *)
Lemma page_window (cfg : Env.ReviewConfig) (allFiles : list ChangedFile)
  (p : Z) :
  1 <= p ->
  files (filesPage cfg allFiles p)
  = map (budgetPatch cfg)
      (firstn 30 (skipn (Z.to_nat ((p - 1) * 30))
                    (reviewableFiles cfg allFiles))).
Proof.
  intros Hp; simpl; unfold FILES_PER_PAGE.
  rewrite slice_window by lia; reflexivity.
Qed.

(** C9 (pagination): for a page number [p >= 1] the tool returns the
    reviewable files at the indices [(p-1)*30 .. p*30-1], each with its patch
    budgeted, so at most 30 files; [hasMore] is true exactly when [p*30] is
    below the number of reviewable files; [reviewableCount] is the number of
    files on the returned page. *)
Theorem files_page_is_window (cfg : Env.ReviewConfig) (gh : Env.GitHub)
  (o r : string) (n p : Z) (allFiles : list ChangedFile)
  (Hfetch : Env.fetchAllPRFiles gh o r n = Ok allFiles) (Hp : 1 <= p) :
  exists res,
    outcome (getPullRequestFiles cfg gh (mkPRIdentifier o r n) p) = Ok res
    /\ (forall i : nat,
          nth_error (files res) i
          = if (i <? 30)%nat then
              option_map (budgetPatch cfg)
                (nth_error (reviewableFiles cfg allFiles)
                   (Z.to_nat ((p - 1) * 30) + i))
            else None)
    /\ (List.length (files res) <= 30)%nat
    /\ (hasMore res = true
        <-> p * 30 < Z.of_nat (List.length (reviewableFiles cfg allFiles)))
    /\ reviewableCount res = Z.of_nat (List.length (files res))
    /\ page res = p.
Proof.
  exists (filesPage cfg allFiles p); split.
  { rewrite (getPullRequestFiles_ok cfg gh o r n p allFiles Hfetch).
    reflexivity. }
  split; [|split; [|split; [|split]]].
  - intros i; rewrite page_window by assumption.
    rewrite nth_error_map, nth_error_firstn.
    destruct (i <? 30)%nat; [|reflexivity].
    now rewrite nth_error_skipn.
  - rewrite page_window by assumption.
    rewrite length_map; apply firstn_le_length.
  - simpl; unfold FILES_PER_PAGE; rewrite Z.ltb_lt; lia.
  - reflexivity.
  - reflexivity.
Qed.

(** 31 reviewable files and a lock file: page 1 holds 30 files and reports
    more, page 2 holds the last one; [reviewableCount] is 30 and then 1,
    never the 31 of the whole pull request. *)
Lemma files_page_is_window_witness :
  let allFiles := (Sample.lockFile :: Sample.numbered 31)%list in
  let gh := Sample.github "" allFiles None in
  (exists res,
      outcome (getPullRequestFiles Sample.config gh Sample.pr 1) = Ok res
      /\ List.length (files res) = 30%nat /\ hasMore res = true
      /\ reviewableCount res = 30)
  /\ (exists res,
      outcome (getPullRequestFiles Sample.config gh Sample.pr 2) = Ok res
      /\ List.length (files res) = 1%nat /\ hasMore res = false
      /\ reviewableCount res = 1).
Proof.
  intros allFiles gh; split.
  - destruct (files_page_is_window Sample.config gh "owner" "repo" 123 1
                allFiles eq_refl ltac:(lia)) as (res & Hres & _).
    exists res; split; [exact Hres|].
    injection Hres as <-; vm_compute; repeat split.
  - exists (filesPage Sample.config allFiles 2); vm_compute; repeat split.
Defined.

(** C10 (frame): every file on a returned page is a fetched file that passed
    the filter, with the same filename, status, additions, deletions and
    changes; its patch is absent exactly when the fetched file has none, and
    a patch that is present is the fetched patch or that patch cut to the
    per-file budget, in either case a prefix of the fetched patch. *)
Theorem files_page_frame (cfg : Env.ReviewConfig) (gh : Env.GitHub)
  (o r : string) (n p : Z) (allFiles : list ChangedFile)
  (Hfetch : Env.fetchAllPRFiles gh o r n = Ok allFiles) :
  exists res,
    outcome (getPullRequestFiles cfg gh (mkPRIdentifier o r n) p) = Ok res
    /\ forall g, In g (files res) ->
       exists f,
         In f allFiles /\ In f (reviewableFiles cfg allFiles)
         /\ g = budgetPatch cfg f
         /\ filename g = filename f /\ status g = status f
         /\ additions g = additions f /\ deletions g = deletions f
         /\ changes g = changes f
         /\ (patch g = None <-> patch f = None)
         /\ (forall q, patch g = Some q ->
             exists q0, patch f = Some q0
               /\ (q = q0
                   \/ q = Lib.truncate q0 (Env.MAX_PATCH_CHARS_PER_FILE cfg))
               /\ Str.isPrefix q q0).
Proof.
  exists (filesPage cfg allFiles p); split.
  { rewrite (getPullRequestFiles_ok cfg gh o r n p allFiles Hfetch).
    reflexivity. }
  intros g Hg; simpl in Hg.
  apply in_map_iff in Hg as (f & <- & Hf).
  apply (Subsequence_In _ _ _ (Subsequence_slice _ _ _)) in Hf.
  exists f; split; [now apply reviewable_In in Hf|].
  split; [assumption|]. split; [reflexivity|].
  apply budgetPatch_frame.
Qed.

Lemma files_page_frame_witness :
  exists res,
    outcome (getPullRequestFiles Sample.config
               (Sample.github "" [Sample.lockFile; Sample.sourceFile] None)
               Sample.pr 1) = Ok res
    /\ files res = [Sample.sourceFile].
Proof.
  destruct (files_page_frame Sample.config
              (Sample.github "" [Sample.lockFile; Sample.sourceFile] None)
              "owner" "repo" 123 1 [Sample.lockFile; Sample.sourceFile]
              eq_refl) as (res & Hres & _).
  exists res; split; [exact Hres|].
  injection Hres as <-; reflexivity.
Defined.

End PageFacts.

(* ------------------------------------------------------------------ *)
(** ** Budgets: what the caller can see of a cut *)

Module BudgetFacts.

Import Schemas Tools StrFacts TruncateFacts.

Lemma overBudget_false (budget : Z) (text : string) :
  Spec.overBudget budget text = false <-> Str.len text <= budget.
Proof. unfold Spec.overBudget; rewrite Z.ltb_ge; reflexivity. Qed.

Lemma overBudget_true (budget : Z) (text : string) :
  Spec.overBudget budget text = true <-> budget < Str.len text.
Proof. unfold Spec.overBudget; rewrite Z.ltb_lt; reflexivity. Qed.

Lemma truncate_idempotent (text : string) (budget : Z) :
  0 <= budget ->
  Lib.truncate (Lib.truncate text budget) budget = Lib.truncate text budget.
Proof. intros H; apply truncate_fits, truncate_len_le, H. Qed.

Lemma truthy_over_budget (budget : Z) (text : string) :
  0 <= budget -> budget < Str.len text -> Str.truthy text = true.
Proof.
  intros H0 Hlt; destruct text; [|reflexivity].
  unfold Str.len in Hlt; simpl in Hlt; lia.
Qed.

Lemma replicate_truthy (n : N) (c : ascii) :
  (0 < n)%N -> Str.truthy (Str.replicate n c) = true.
Proof.
  intros Hn; replace n with (N.succ (N.pred n)) by lia.
  now rewrite replicate_succ.
Qed.

(** A text over a non-negative budget, one code unit too long. *)
Lemma over_budget_text (budget : Z) :
  0 <= budget ->
  Spec.overBudget budget (Str.replicate (Z.to_N budget + 1) "x") = true.
Proof. intros H; apply overBudget_true; rewrite len_replicate; lia. Qed.

(** No budgeter that keeps the contract of section 4.2 (a result within the
    budget, a text within the budget unchanged) shows in its result alone
    whether it cut: the cut text is also what it returns for the cut text
    itself, which fits. *)
Lemma contract_abiding_budgeter_hides_cut (trunc : string -> Z -> string)
  (budget : Z) :
  0 <= budget ->
  (forall t, Str.len (trunc t budget) <= budget) ->
  (forall t, Str.len t <= budget -> trunc t budget = t) ->
  ~ Spec.truncationObservable (fun t => trunc t budget)
      (Spec.overBudget budget).
Proof.
  intros H0 Hle Hfit [flag Hflag].
  set (long := Str.replicate (Z.to_N budget + 1) "x").
  pose proof (Hflag long) as Hlong.
  pose proof (Hflag (trunc long budget)) as Hcut; cbv beta in Hlong, Hcut.
  rewrite (Hfit (trunc long budget)) in Hcut by apply Hle.
  rewrite Hlong in Hcut.
  unfold long in Hcut; rewrite over_budget_text in Hcut by assumption.
  symmetry in Hcut; apply overBudget_true in Hcut.
  specialize (Hle (Str.replicate (Z.to_N budget + 1) "x")); lia.
Qed.

(** The file whose patch is over the budget and the file that carries the
    cut patch as its own come out of [budgetPatch] the same. *)
Lemma budgetPatch_hides_cut (cfg : Env.ReviewConfig) (f : ChangedFile)
  (p : string) :
  0 <= Env.MAX_PATCH_CHARS_PER_FILE cfg ->
  patch f = Some p ->
  Spec.overBudget (Env.MAX_PATCH_CHARS_PER_FILE cfg) p = true ->
  let cut := Lib.truncate p (Env.MAX_PATCH_CHARS_PER_FILE cfg) in
  let f' := mkChangedFile (filename f) (status f) (additions f) (deletions f)
              (changes f) (Some cut) in
  budgetPatch cfg f = budgetPatch cfg f'
  /\ Spec.overBudget (Env.MAX_PATCH_CHARS_PER_FILE cfg) cut = false.
Proof.
  intros H0 Hp Hover cut f'; split.
  - unfold budgetPatch; rewrite Hp; simpl.
    rewrite (truthy_over_budget _ p H0) by now apply overBudget_true.
    destruct (Str.truthy cut); [|reflexivity].
    subst cut; now rewrite truncate_idempotent.
  - apply overBudget_false; subst cut; now apply truncate_len_le.
Qed.

Lemma getPullRequestDiff_ok (gh : Env.GitHub) (o r : string) (n : Z)
  (d : string) :
  Env.fetchDiffText gh o r n = Ok d ->
  getPullRequestDiff gh (mkPRIdentifier o r n)
  = mkRun [GetDiff o r n] (Ok (diffResult d)).
Proof.
  intros Hfetch; unfold getPullRequestDiff, bind, await; simpl.
  rewrite Hfetch; reflexivity.
Qed.

Lemma diffResult_flag (d : string) :
  truncated (diffResult d) = Spec.overBudget MAX_DIFF_CHARS d
  /\ diff (diffResult d) = Lib.truncate d MAX_DIFF_CHARS.
Proof.
  unfold diffResult, Spec.overBudget; rewrite Z.gtb_ltb.
  destruct (Z.ltb_spec MAX_DIFF_CHARS (Str.len d)); simpl; split;
    try reflexivity.
  symmetry; now apply truncate_fits.
Qed.

Lemma getFileContent_run (cfg : Env.ReviewConfig) (gh : Env.GitHub)
  (o r path ref : string) (result : option Env.FileContent) :
  Env.fetchFileContent gh o r path ref = Ok result ->
  getFileContent cfg gh o r path ref
  = mkRun [GetContent o r path ref] (Ok (contentResult cfg result)).
Proof.
  intros Hfetch; unfold getFileContent, bind, await; simpl.
  rewrite Hfetch; reflexivity.
Qed.

(** C3, as the code has it: only the whole-PR diff reports a cut.  The
    [truncated] field of [getPullRequestDiff] is true exactly when the diff
    was longer than 80,000 characters, and [diff] is then the cut text.  A
    file returned by [getPullRequestFiles] carries no such mark: a patch over
    a (non-negative) budget and the patch that equals its first budget
    characters give the same file, so no reading of the result tells a cut
    patch from one that fit.  The result of [getFileContent] has no flag
    either and its content alone does not show a cut, but it keeps the
    fetched size next to the cut content: when that size is the length of
    the fetched content, the content was cut exactly when the returned
    content is shorter than the returned size. *)
Theorem truncation_reported_for_diff_only (cfg : Env.ReviewConfig)
  (gh : Env.GitHub)
  (Hpatch : 0 <= Env.MAX_PATCH_CHARS_PER_FILE cfg)
  (Hcontent : 0 <= Env.MAX_CONTENT_CHARS_PER_FILE cfg) :
  (forall o r n d, Env.fetchDiffText gh o r n = Ok d ->
     exists res,
       outcome (getPullRequestDiff gh (mkPRIdentifier o r n)) = Ok res
       /\ truncated res = Spec.overBudget MAX_DIFF_CHARS d
       /\ diff res = Lib.truncate d MAX_DIFF_CHARS)
  /\ Spec.truncationObservable diffResult (Spec.overBudget MAX_DIFF_CHARS)
  /\ ~ Spec.truncationObservable (budgetPatch cfg)
         (fun f => match patch f with
                   | Some t =>
                       Spec.overBudget (Env.MAX_PATCH_CHARS_PER_FILE cfg) t
                   | None => false
                   end)
  /\ ~ Spec.truncationObservable
         (fun fc => content (contentResult cfg (Some fc)))
         (fun fc =>
            Spec.overBudget (Env.MAX_CONTENT_CHARS_PER_FILE cfg)
              (Env.content fc))
  /\ (forall fc, Env.size fc = Str.len (Env.content fc) ->
      exists text,
        content (contentResult cfg (Some fc)) = Some text
        /\ size (contentResult cfg (Some fc)) = Env.size fc
        /\ (Str.len text <? size (contentResult cfg (Some fc)))
           = Spec.overBudget (Env.MAX_CONTENT_CHARS_PER_FILE cfg)
               (Env.content fc)).
Proof.
  split; [|split; [|split; [|split]]].
  - intros o r n d Hfetch; exists (diffResult d).
    rewrite (getPullRequestDiff_ok gh o r n d Hfetch).
    split; [reflexivity | apply diffResult_flag].
  - exists truncated; intros d; apply diffResult_flag.
  - intros [flag Hflag].
    set (budget := Env.MAX_PATCH_CHARS_PER_FILE cfg) in *.
    set (long := Str.replicate (Z.to_N budget + 1) "x").
    set (f := mkChangedFile "a.ts" "modified" 1 0 1 (Some long)).
    pose proof (over_budget_text budget Hpatch) as Hover; fold long in Hover.
    destruct (budgetPatch_hides_cut cfg f long Hpatch eq_refl Hover)
      as [Hsame Hfit].
    pose proof (Hflag f) as H1; simpl in H1.
    rewrite Hsame, Hflag in H1; simpl in H1.
    fold budget in Hfit, H1; congruence.
  - intros [flag Hflag].
    set (budget := Env.MAX_CONTENT_CHARS_PER_FILE cfg) in *.
    set (long := Str.replicate (Z.to_N budget + 1) "x").
    pose proof (over_budget_text budget Hcontent) as Hover; fold long in Hover.
    pose proof (Hflag (Env.mkFileContent long "utf-8"
                         (Str.len long))) as H1.
    pose proof (Hflag (Env.mkFileContent (Lib.truncate long budget) "utf-8"
                         (Str.len (Lib.truncate long budget)))) as H2.
    simpl in H1, H2; fold budget in H1, H2.
    rewrite truncate_idempotent in H2 by assumption.
    assert (Hfit : Spec.overBudget budget (Lib.truncate long budget) = false)
      by now apply overBudget_false, truncate_len_le.
    congruence.
  - intros fc Hsize; eexists; split; [reflexivity|].
    split; [reflexivity|].
    cbn [size contentResult]; rewrite Hsize.
    set (budget := Env.MAX_CONTENT_CHARS_PER_FILE cfg) in *.
    unfold Spec.overBudget.
    destruct (Z.ltb_spec budget (Str.len (Env.content fc))) as [Hcut|Hfit].
    + rewrite truncate_len_cut by assumption; now apply Z.ltb_lt.
    + rewrite truncate_fits by assumption; apply Z.ltb_irrefl.
Qed.

(** A diff one character over 80,000 is reported as truncated; the sample
    budgets hide a cut patch. *)
Lemma truncation_reported_for_diff_only_witness :
  (exists res,
     outcome (getPullRequestDiff
                (Sample.github (Str.replicate 80001 "x") [] None) Sample.pr)
     = Ok res
     /\ truncated res = true)
  /\ ~ Spec.truncationObservable (budgetPatch Sample.config)
         (fun f => match patch f with
                   | Some t => Spec.overBudget 20000 t
                   | None => false
                   end).
Proof.
  destruct (truncation_reported_for_diff_only Sample.config
              (Sample.github (Str.replicate 80001 "x") [] None)
              ltac:(simpl; lia) ltac:(simpl; lia))
    as (Hdiff & _ & Hpatch & _).
  split; [|exact Hpatch].
  destruct (Hdiff "owner" "repo" 123 (Str.replicate 80001 "x") eq_refl)
    as (res & Hres & Hflag & _).
  exists res; split; [exact Hres|].
  rewrite Hflag; apply overBudget_true; rewrite len_replicate.
  unfold MAX_DIFF_CHARS; lia.
Defined.

Lemma filesPage_single (cfg : Env.ReviewConfig) (f : ChangedFile) :
  matchesSkipPattern cfg (filename f) = false ->
  filesPage cfg [f] 1 = mkFilesResult [budgetPatch cfg f] 1 1 false 1.
Proof.
  intros Hkeep; unfold filesPage, reviewableFiles; simpl.
  rewrite Hkeep; reflexivity.
Qed.

(** C3 as the spec words it fails for per-file patches: under a budget of
    20,000 no reading of the page that [getPullRequestFiles] returns tells
    whether the patch of its file was cut: Scenario D's patch of 50,000
    characters and the 20,000 characters it is cut to give the same page. *)
Lemma patch_cut_is_not_observable :
  ~ Spec.truncationObservable
      (fun patchText =>
         filesPage Sample.config
           [Sample.file "src/a.ts" "modified" 0 (Some patchText)] 1)
      (Spec.overBudget 20000).
Proof.
  intros [flag Hflag].
  pose proof (Hflag (Str.replicate (20000 + 30000) "x")) as Hcut.
  pose proof (Hflag (Str.replicate 20000 "x")) as Hfit.
  rewrite filesPage_single in Hcut, Hfit by reflexivity.
  assert (Hsame :
    budgetPatch Sample.config
      (Sample.file "src/a.ts" "modified" 0
         (Some (Str.replicate (20000 + 30000) "x")))
    = budgetPatch Sample.config
      (Sample.file "src/a.ts" "modified" 0 (Some (Str.replicate 20000 "x")))).
  { unfold budgetPatch, Sample.file, patch, filename, status, additions,
      deletions, changes, Sample.config, Env.MAX_PATCH_CHARS_PER_FILE.
    rewrite !replicate_truthy by lia.
    change 20000 with (Z.of_N 20000).
    rewrite (truncate_replicate 20000 30000).
    rewrite truncate_fits by (rewrite len_replicate; lia).
    reflexivity. }
  rewrite Hsame, Hfit in Hcut.
  assert (Hover : Spec.overBudget 20000 (Str.replicate (20000 + 30000) "x")
                  = true)
    by (apply overBudget_true; rewrite len_replicate; lia).
  assert (Hunder : Spec.overBudget 20000 (Str.replicate 20000 "x") = false)
    by (apply overBudget_false; rewrite len_replicate; lia).
  congruence.
Qed.



End BudgetFacts.

(* ------------------------------------------------------------------ *)
(** ** parseGitHubPRUrl *)

Module RegexFacts.

Import Regex StrFacts.

Lemma stripPrefix_app (p s : string) : stripPrefix p (p ++ s) = Some s.
Proof.
  induction p as [|c p IH]; simpl; [reflexivity|].
  now rewrite Ascii.eqb_refl.
Qed.

Lemma stripPrefix_Some (p s rest : string) :
  stripPrefix p s = Some rest -> s = p ++ rest.
Proof.
  revert s; induction p as [|c p IH]; intros s; simpl.
  - now intros [= ->].
  - destruct s as [|d s]; [discriminate|].
    destruct (Ascii.eqb_spec c d) as [->|]; [|discriminate].
    intros H; apply IH in H; now subst.
Qed.

Lemma span_app (p : ascii -> bool) (s a b : string) :
  Str.span p s = (a, b) -> s = a ++ b.
Proof.
  revert a b; induction s as [|c s IH]; simpl; intros a b.
  - now intros [= <- <-].
  - destruct (p c).
    + destruct (Str.span p s) as [a' b'] eqn:E; intros [= <- <-].
      simpl; f_equal; now apply IH.
    + now intros [= <- <-].
Qed.

Lemma span_all (p : ascii -> bool) (s a b : string) :
  Str.span p s = (a, b) -> Str.all p a = true.
Proof.
  revert a b; induction s as [|c s IH]; simpl; intros a b.
  - now intros [= <- <-].
  - destruct (p c) eqn:Hc.
    + destruct (Str.span p s) as [a' b'] eqn:E; intros [= <- <-].
      simpl; rewrite Hc; simpl; now apply (IH a' b').
    + now intros [= <- <-].
Qed.

Lemma span_stops (p : ascii -> bool) (s a b : string) :
  Str.span p s = (a, b) -> Str.stopsAt p b.
Proof.
  revert a b; induction s as [|c s IH]; simpl; intros a b.
  - now intros [= <- <-].
  - destruct (p c) eqn:Hc.
    + destruct (Str.span p s) as [a' b'] eqn:E; intros [= <- <-].
      now apply (IH a' b').
    + now intros [= <- <-].
Qed.

Lemma span_complete (p : ascii -> bool) (a b : string) :
  Str.all p a = true -> Str.stopsAt p b -> Str.span p (a ++ b) = (a, b).
Proof.
  intros Ha Hb; induction a as [|c a IH]; simpl in *.
  - destruct b as [|d b]; [reflexivity|]; simpl in Hb |- *; now rewrite Hb.
  - apply andb_true_iff in Ha as [Hc Ha]; rewrite Hc, IH by assumption.
    reflexivity.
Qed.

Lemma span_take (p : ascii -> bool) (s a b : string) :
  Str.span p s = (a, b) ->
  Str.take (String.length s - String.length b) s = a.
Proof.
  intros H; pose proof (span_app p s a b H) as ->.
  rewrite length_append.
  replace (String.length a + String.length b - String.length b)%nat
    with (String.length a) by lia.
  apply take_append.
Qed.

Section Greedy.
Context {R : Type} (cs : charset) (k : string -> option R).

(** The continuation fails wherever the class could still go on: giving a
    code unit back never helps. *)
Hypothesis k_needs_stop :
  forall c s, inSet cs c = true -> k (String c s) = None.

Lemma star_no_backtrack (s : string) :
  star cs k s = k (snd (Str.span (inSet cs) s)).
Proof.
  induction s as [|c s IH]; simpl; [reflexivity|].
  destruct (inSet cs c) eqn:Hc; [|reflexivity].
  rewrite IH; destruct (Str.span (inSet cs) s) as [a b]; simpl.
  destruct (k b); [reflexivity|].
  now apply k_needs_stop.
Qed.

Lemma plus_no_backtrack (s : string) :
  plus cs k s
  = match Str.span (inSet cs) s with
    | (EmptyString, _) => None
    | (_, b) => k b
    end.
Proof.
  destruct s as [|c s]; simpl; [reflexivity|].
  destruct (inSet cs c) eqn:Hc; [|reflexivity].
  rewrite star_no_backtrack.
  now destruct (Str.span (inSet cs) s) as [a b].
Qed.

End Greedy.

Lemma run_Seq input r1 r2 s caps k :
  run input (Seq r1 r2) s caps k
  = run input r1 s caps (fun s' caps' => run input r2 s' caps' k).
Proof. reflexivity. Qed.

Lemma run_Lit input p s caps k :
  run input (Lit p) s caps k
  = match stripPrefix p s with
    | Some s' => k s' caps
    | None => None
    end.
Proof. reflexivity. Qed.

Lemma run_Opt input r s caps k :
  run input (Opt r) s caps k
  = match run input r s caps k with
    | Some c => Some c
    | None => k s caps
    end.
Proof. reflexivity. Qed.

Lemma run_Group_Plus input cs s caps k :
  (forall c s' caps', inSet cs c = true -> k (String c s') caps' = None) ->
  run input (Group (Plus cs)) s caps k
  = match Str.span (inSet cs) s with
    | (EmptyString, _) => None
    | (a, b) => k b (caps ++ [a])%list
    end.
Proof.
  intros Hk; cbn [run].
  rewrite plus_no_backtrack by (intros; apply Hk; assumption).
  destruct (Str.span (inSet cs) s) as [a b] eqn:E.
  destruct a as [|c a]; [reflexivity|].
  now rewrite (span_take _ _ _ _ E).
Qed.

(** A pattern that starts with [^] does not match at a later start index. *)
Lemma execFrom_Bol_later input r s :
  (String.length s < String.length input)%nat ->
  execFrom input (Seq Bol r) s = None.
Proof.
  induction s as [|c s IH]; intros Hlt; cbn [execFrom run].
  - destruct (Nat.eqb_spec (String.length "") (String.length input));
      [lia | reflexivity].
  - destruct (Nat.eqb_spec (String.length (String c s)) (String.length input));
      [lia|].
    apply IH; simpl in Hlt; lia.
Qed.

Lemma exec_Bol r input :
  exec (Seq Bol r) input = run input r input [] (fun _ caps => Some caps).
Proof.
  unfold exec; destruct input as [|c s]; cbn [execFrom run].
  - rewrite Nat.eqb_refl; now destruct (run "" r "" [] _).
  - rewrite Nat.eqb_refl.
    destruct (run (String c s) r (String c s) [] _); [reflexivity|].
    apply execFrom_Bol_later; simpl; lia.
Qed.

End RegexFacts.

Module UrlFacts.

Import Schemas Regex Tools UrlMatch StrFacts RegexFacts.

Lemma slash_is_no_digit (c : ascii) :
  isDigit c = true -> Ascii.eqb "/" c = false.
Proof.
  intros Hd; destruct (Ascii.eqb_spec "/"%char c) as [<-|]; [|reflexivity].
  discriminate Hd.
Qed.

Lemma slash_is_no_segment_unit (c : ascii) :
  inSet (CsNot "/") c = true -> Ascii.eqb "/" c = false.
Proof.
  simpl; rewrite negb_true_iff, Ascii.eqb_sym; trivial.
Qed.

(** The end of the pattern, [\/?$], accepts the empty rest and a lone
    slash. *)
Lemma run_optional_slash_end input s caps :
  run input (Seq (Opt (Lit "/")) Eol) s caps (fun _ c => Some c)
  = if String.eqb s "" || String.eqb s "/" then Some caps else None.
Proof.
  cbn [run]; destruct s as [|c s]; [reflexivity|].
  cbn [stripPrefix]; simpl String.eqb.
  rewrite (Ascii.eqb_sym c "/").
  destruct (Ascii.eqb "/" c); [|reflexivity].
  now destruct s.
Qed.

Lemma optional_slash_end_needs_stop input c s caps :
  isDigit c = true ->
  run input (Seq (Opt (Lit "/")) Eol) (String c s) caps (fun _ c => Some c)
  = None.
Proof.
  intros Hd; rewrite run_optional_slash_end.
  simpl String.eqb; rewrite (Ascii.eqb_sym c "/"), slash_is_no_digit by easy.
  reflexivity.
Qed.

Lemma lit_slash_needs_stop input p c s caps k :
  inSet (CsNot "/") c = true ->
  run input (Seq (Lit (String "/" p)) k) (String c s) caps
    (fun _ c => Some c) = None.
Proof.
  intros Hc; cbn [run stripPrefix].
  now rewrite slash_is_no_segment_unit.
Qed.

(** The pattern after the scheme, as the matcher runs it, is [matchPath]. *)
Lemma run_path input s :
  run input
    (Lit "://github.com/"
     +++ Group (Plus (CsNot "/")) +++ Lit "/"
     +++ Group (Plus (CsNot "/")) +++ Lit "/pull/"
     +++ Group (Plus CsDigit)
     +++ Opt (Lit "/") +++ Eol)%re s [] (fun _ caps => Some caps)
  = matchPath s.
Proof.
  unfold matchPath.
  rewrite run_Seq, run_Lit.
  destruct (stripPrefix "://github.com/" s) as [s1|]; [|reflexivity].
  rewrite run_Seq, run_Group_Plus
    by (intros; now apply lit_slash_needs_stop).
  change (inSet (CsNot "/")) with notSlash.
  destruct (Str.span notSlash s1) as [[|c1 o] s2]; [reflexivity|].
  rewrite run_Seq, run_Lit.
  destruct (stripPrefix "/" s2) as [s3|]; [|reflexivity].
  rewrite run_Seq, run_Group_Plus
    by (intros; now apply lit_slash_needs_stop).
  change (inSet (CsNot "/")) with notSlash.
  destruct (Str.span notSlash s3) as [[|c2 r] s4]; [reflexivity|].
  rewrite run_Seq, run_Lit.
  destruct (stripPrefix "/pull/" s4) as [s5|]; [|reflexivity].
  rewrite run_Seq, run_Group_Plus
    by (intros; now apply optional_slash_end_needs_stop).
  change (inSet CsDigit) with isDigit.
  destruct (Str.span isDigit s5) as [[|c3 d] s6]; [reflexivity|].
  apply run_optional_slash_end.
Qed.

(** [url.match(PR_URL_RE)] is [matchUrl url]. *)
Lemma exec_PR_URL_RE (url : string) : exec PR_URL_RE url = matchUrl url.
Proof.
  unfold PR_URL_RE, matchUrl; rewrite exec_Bol.
  rewrite run_Seq, run_Lit.
  destruct (stripPrefix "http" url) as [s1|]; [|reflexivity].
  rewrite run_Seq, run_Opt, run_Lit; cbv beta.
  destruct (stripPrefix "s" s1) as [s2|].
  - now rewrite !run_path.
  - now rewrite run_path.
Qed.

Lemma isSegment_span (seg rest : string) :
  Spec.isSegment seg -> Str.span notSlash (seg ++ "/" ++ rest)
                        = (seg, "/" ++ rest).
Proof. intros [_ Hall]; now apply span_complete. Qed.

Lemma matchPath_complete (o r d tail : string) :
  Spec.isSegment o -> Spec.isSegment r -> Spec.isDigits d ->
  tail = "" \/ tail = "/" ->
  matchPath ("://github.com/" ++ o ++ "/" ++ r ++ "/pull/" ++ d ++ tail)
  = Some [o; r; d].
Proof.
  intros Ho Hr Hd Htail; unfold matchPath.
  rewrite stripPrefix_app, (isSegment_span o) by assumption.
  destruct o as [|c1 o]; [now destruct Ho|].
  rewrite stripPrefix_app.
  change ("/pull/" ++ d ++ tail) with ("/" ++ "pull/" ++ d ++ tail).
  rewrite (isSegment_span r) by assumption.
  destruct r as [|c2 r]; [now destruct Hr|].
  change ("/" ++ "pull/" ++ d ++ tail) with ("/pull/" ++ d ++ tail).
  rewrite stripPrefix_app.
  rewrite (span_complete isDigit d tail);
    [| apply Hd | destruct Htail as [->| ->]; simpl; trivial].
  destruct d as [|c3 d]; [now destruct Hd|].
  now destruct Htail as [->| ->].
Qed.

Lemma matchPath_sound (s : string) (caps : captures) :
  matchPath s = Some caps ->
  exists o r d tail,
    caps = [o; r; d] /\ Spec.isSegment o /\ Spec.isSegment r
    /\ Spec.isDigits d /\ (tail = "" \/ tail = "/")
    /\ s = "://github.com/" ++ o ++ "/" ++ r ++ "/pull/" ++ d ++ tail.
Proof.
  unfold matchPath.
  destruct (stripPrefix "://github.com/" s) as [s1|] eqn:E1; [|discriminate].
  destruct (Str.span notSlash s1) as [o s2] eqn:E2.
  destruct o as [|c1 o]; [discriminate|].
  destruct (stripPrefix "/" s2) as [s3|] eqn:E3; [|discriminate].
  destruct (Str.span notSlash s3) as [r s4] eqn:E4.
  destruct r as [|c2 r]; [discriminate|].
  destruct (stripPrefix "/pull/" s4) as [s5|] eqn:E5; [|discriminate].
  destruct (Str.span isDigit s5) as [d s6] eqn:E6.
  destruct d as [|c3 d]; [discriminate|].
  destruct (String.eqb s6 "" || String.eqb s6 "/") eqn:E7; [|discriminate].
  intros [= <-].
  exists (String c1 o), (String c2 r), (String c3 d), s6.
  split; [reflexivity|].
  split; [split; [discriminate | exact (span_all _ _ _ _ E2)]|].
  split; [split; [discriminate | exact (span_all _ _ _ _ E4)]|].
  split; [split; [discriminate | exact (span_all _ _ _ _ E6)]|].
  split.
  - apply orb_true_iff in E7 as [E7|E7]; apply String.eqb_eq in E7; auto.
  - apply stripPrefix_Some in E1, E3, E5.
    apply span_app in E2, E4, E6.
    subst s s1 s2 s3 s4 s5.
    reflexivity.
Qed.

Lemma host_has_no_s (rest : string) :
  stripPrefix "s" ("://github.com/" ++ rest) = None.
Proof. reflexivity. Qed.

Lemma matchUrl_complete (url o r d : string) :
  Spec.isPRUrl ["http"; "https"] url o r d -> matchUrl url = Some [o; r; d].
Proof.
  intros (scheme & tail & Hs & Htail & Ho & Hr & Hd & ->).
  unfold matchUrl.
  destruct Hs as [<-|[<-|[]]].
  - change ("http" ++ "://github.com/" ++ o ++ "/" ++ r ++ "/pull/" ++ d ++ tail)
      with ("http" ++ ("://github.com/" ++ o ++ "/" ++ r ++ "/pull/" ++ d
                       ++ tail)).
    rewrite stripPrefix_app, host_has_no_s.
    now rewrite (matchPath_complete o r d tail).
  - change ("https" ++ "://github.com/" ++ o ++ "/" ++ r ++ "/pull/" ++ d
            ++ tail)
      with ("http" ++ "s" ++ ("://github.com/" ++ o ++ "/" ++ r ++ "/pull/"
                              ++ d ++ tail)).
    rewrite !stripPrefix_app.
    now rewrite (matchPath_complete o r d tail).
Qed.

Lemma matchUrl_sound (url : string) (caps : captures) :
  matchUrl url = Some caps ->
  exists o r d,
    caps = [o; r; d] /\ Spec.isPRUrl ["http"; "https"] url o r d.
Proof.
  unfold matchUrl.
  destruct (stripPrefix "http" url) as [s1|] eqn:E1; [|discriminate].
  apply stripPrefix_Some in E1; subst url.
  destruct (stripPrefix "s" s1) as [s2|] eqn:E2.
  - apply stripPrefix_Some in E2; subst s1.
    destruct (matchPath s2) as [caps'|] eqn:E3.
    + intros [= <-].
      apply matchPath_sound in E3
        as (o & r & d & tail & -> & Ho & Hr & Hd & Htail & ->).
      exists o, r, d; split; [reflexivity|].
      exists "https", tail; repeat split; try assumption; try apply Ho;
        try apply Hr; try apply Hd.
      simpl; auto.
    + intros E4; apply matchPath_sound in E4
        as (o & r & d & tail & _ & _ & _ & _ & _ & E5).
      discriminate E5.
  - intros E3; apply matchPath_sound in E3
      as (o & r & d & tail & -> & Ho & Hr & Hd & Htail & ->).
    exists o, r, d; split; [reflexivity|].
    exists "http", tail; repeat split; try assumption; try apply Ho;
      try apply Hr; try apply Hd.
    simpl; auto.
Qed.

Lemma parseDigits_fold (d : string) (acc : Z) :
  Str.all isDigit d = true ->
  parseDigits acc d
  = fold_left (fun a c => 10 * a + digitValue c) (list_ascii_of_string d) acc.
Proof.
  revert acc; induction d as [|c d IH]; intros acc; simpl; [reflexivity|].
  intros H; apply andb_true_iff in H as [Hc Hd].
  rewrite Hc; now apply IH.
Qed.

Lemma parseInt10_digits (d : string) :
  Spec.isDigits d -> parseInt10 d = roundToDouble (Spec.decimalValue d).
Proof.
  intros [Hne Hall]; destruct d as [|c d]; [now destruct Hne|].
  unfold parseInt10, Spec.decimalValue.
  rewrite <- parseDigits_fold by assumption.
  simpl in Hall; apply andb_true_iff in Hall as [Hc _].
  now rewrite Hc.
Qed.

Lemma parseDigits_nonneg (s : string) (acc : Z) :
  0 <= acc -> 0 <= parseDigits acc s.
Proof.
  revert acc; induction s as [|c s IH]; intros acc Hacc; [assumption|].
  cbn [parseDigits].
  destruct (isDigit c) eqn:Hc; [|assumption].
  apply IH; unfold digitValue, isDigit in *.
  apply andb_true_iff in Hc as [Hlo _]; apply N.leb_le in Hlo; lia.
Qed.

Lemma decimalValue_nonneg (d : string) :
  Spec.isDigits d -> 0 <= Spec.decimalValue d.
Proof.
  intros [_ Hall]; unfold Spec.decimalValue.
  rewrite <- parseDigits_fold by assumption.
  apply parseDigits_nonneg; lia.
Qed.

(** Up to [2^53] an integer is its own Number value. *)
Lemma roundToDouble_exact (v : Z) :
  0 <= v <= 2 ^ 53 -> roundToDouble v = Finite v.
Proof.
  intros [H0 Hle]; unfold roundToDouble.
  destruct (Z.ltb_spec v (2 ^ 53)) as [Hlt|Hge]; [reflexivity|].
  assert (Hv : v = 2 ^ 53) by (apply Z.le_antisymm; assumption).
  rewrite Hv; vm_compute; reflexivity.
Qed.

Lemma roundToDouble_nonNegative (v : Z) :
  0 <= v -> nonNegative (roundToDouble v).
Proof.
  intros H0; unfold roundToDouble.
  destruct (v <? 2 ^ 53); [exact H0|].
  set (e := Z.log2 v - 52).
  assert (Hpow : 0 <= 2 ^ e) by (apply Z.pow_nonneg; lia).
  assert (Hq : 0 <= v / 2 ^ e).
  { destruct (Z.eq_dec (2 ^ e) 0) as [->|Hne];
      [rewrite Z.div_0_r; lia | apply Z.div_pos; lia]. }
  cbv zeta.
  match goal with
  | |- nonNegative (if _ <=? ?x * _ then _ else _) => set (m := x)
  end.
  assert (Hm : 0 <= m).
  { subst m; destruct (_ <? _); [assumption|].
    destruct (_ <? _); [lia|]. destruct (Z.even _); lia. }
  destruct (2 ^ 1024 <=? m * 2 ^ e); [exact I|].
  simpl; apply Z.mul_nonneg_nonneg; assumption.
Qed.

Example parse_trailing_slash :
  parseGitHubPRUrl "https://github.com/owner/repo/pull/123/"
  = ret (mkParsedUrl "owner" "repo" (Finite 123)).
Proof. reflexivity. Qed.

Example parse_leading_zeros :
  outcome (parseGitHubPRUrl "https://github.com/o/r/pull/007")
  = Ok (mkParsedUrl "o" "r" (Finite 7)).
Proof. reflexivity. Qed.

(** [2^53 + 1] lies halfway between two doubles and goes to the even one. *)
Example parse_rounds_beyond_2_53 :
  outcome (parseGitHubPRUrl "https://github.com/o/r/pull/9007199254740993")
  = Ok (mkParsedUrl "o" "r" (Finite 9007199254740992)).
Proof. vm_compute; reflexivity. Qed.

Example parse_rounds_up_beyond_2_53 :
  outcome (parseGitHubPRUrl "https://github.com/o/r/pull/9007199254740995")
  = Ok (mkParsedUrl "o" "r" (Finite 9007199254740996)).
Proof. vm_compute; reflexivity. Qed.

(** 400 digits are more than any double holds. *)
Example parse_overflows_to_Infinity :
  outcome (parseGitHubPRUrl
             ("https://github.com/o/r/pull/" ++ Str.replicate 400 "9"))
  = Ok (mkParsedUrl "o" "r" Infinity).
Proof. vm_compute; reflexivity. Qed.

Example parse_rejects_files_tab :
  parseGitHubPRUrl "https://github.com/o/r/pull/12/files"
  = throw (invalidUrlMessage "https://github.com/o/r/pull/12/files").
Proof. reflexivity. Qed.

Example parse_rejects_non_numeric :
  parseGitHubPRUrl "https://github.com/o/r/pull/abc"
  = throw (invalidUrlMessage "https://github.com/o/r/pull/abc").
Proof. reflexivity. Qed.

Example parse_rejects_leading_text :
  parseGitHubPRUrl "see https://github.com/o/r/pull/1"
  = throw (invalidUrlMessage "see https://github.com/o/r/pull/1").
Proof. reflexivity. Qed.

(** C6, as the code has it: [parseGitHubPRUrl] sends no request; a URL of the
    form [http://github.com/owner/repo/pull/digits] or
    [https://github.com/owner/repo/pull/digits], optionally with a trailing
    slash, is parsed into that owner, that repo and the Number value of the
    integer the digits denote, which is that integer itself up to [2^53] and
    the nearest double or [Infinity] beyond; every other string throws the
    invalid-URL error; and every string is of one kind or the other. *)
Theorem parseGitHubPRUrl_accepts_http_and_https (url : string) :
  calls (parseGitHubPRUrl url) = []
  /\ (forall o r d,
        Spec.isPRUrl ["http"; "https"] url o r d ->
        outcome (parseGitHubPRUrl url)
        = Ok (mkParsedUrl o r (roundToDouble (Spec.decimalValue d)))
        /\ (Spec.decimalValue d <= 2 ^ 53 ->
            outcome (parseGitHubPRUrl url)
            = Ok (mkParsedUrl o r (Finite (Spec.decimalValue d)))))
  /\ (~ (exists o r d, Spec.isPRUrl ["http"; "https"] url o r d) ->
      outcome (parseGitHubPRUrl url)
      = Threw (mkError (invalidUrlMessage url)))
  /\ ((exists o r d, Spec.isPRUrl ["http"; "https"] url o r d)
      \/ ~ (exists o r d, Spec.isPRUrl ["http"; "https"] url o r d)).
Proof.
  unfold parseGitHubPRUrl; rewrite exec_PR_URL_RE.
  destruct (matchUrl url) as [caps|] eqn:E.
  - destruct (matchUrl_sound url caps E) as (o & r & d & -> & Hurl).
    assert (Hd : Spec.isDigits d)
      by (destruct Hurl as (? & ? & _ & _ & _ & _ & Hd & _); exact Hd).
    cbn [nth]; rewrite (parseInt10_digits d Hd).
    split; [reflexivity|].
    split; [|split].
    + intros o' r' d' Hurl'.
      apply matchUrl_complete in Hurl'.
      rewrite E in Hurl'; injection Hurl' as <- <- <-.
      split; [reflexivity|].
      intros Hsafe; cbn [outcome ret].
      rewrite roundToDouble_exact; [reflexivity|].
      split; [now apply decimalValue_nonneg | assumption].
    + intros Hno; exfalso; apply Hno; now exists o, r, d.
    + left; now exists o, r, d.
  - split; [reflexivity|].
    split; [|split].
    + intros o r d Hurl; apply matchUrl_complete in Hurl; congruence.
    + reflexivity.
    + right; intros (o & r & d & Hurl).
      apply matchUrl_complete in Hurl; congruence.
Qed.

(** C6 as the spec words it fails: a URL with the scheme [http] is not of the
    form [https://github.com/owner/repo/pull/digits], and it is parsed. *)
Lemma parseGitHubPRUrl_accepts_plain_http :
  ~ (exists o r d,
       Spec.isPRUrl ["https"] "http://github.com/octo/hello/pull/42" o r d)
  /\ parseGitHubPRUrl "http://github.com/octo/hello/pull/42"
     = ret (mkParsedUrl "octo" "hello" (Finite 42)).
Proof.
  split; [|reflexivity].
  intros (o & r & d & scheme & tail & [<-|[]] & _ & _ & _ & _ & Heq).
  discriminate Heq.
Qed.

End UrlFacts.

(* ------------------------------------------------------------------ *)
(** ** The finding aggregator *)

Module AggregatorFacts.

Import Schemas Aggregator.

Lemma rank_critical (s : Severity) : 3 <= severityRank s -> s = critical.
Proof. destruct s; simpl; intros H; try reflexivity; lia. Qed.

Lemma isCritical_rank (f : Finding) :
  isCritical f = true <-> severityRank (severity (findingIssue f)) = 3.
Proof.
  unfold isCritical; destruct (severity (findingIssue f)); simpl; split;
    intros H; try reflexivity; try discriminate; lia.
Qed.

(** Inserting a finding neither loses a critical finding nor fails to record
    a critical one. *)
Lemma insertFinding_critical (ext : Collaborators) (f : Finding)
  (kept : list Finding) :
  existsb isCritical (insertFinding ext f kept)
  = existsb isCritical kept || isCritical f.
Proof.
  induction kept as [|g kept IH]; simpl.
  - now rewrite orb_false_r.
  - destruct (duplicate ext g f).
    + destruct (Z.ltb_spec (severityRank (severity (findingIssue g)))
                  (severityRank (severity (findingIssue f)))) as [Hlt|Hge];
        simpl.
      * assert (Hg : isCritical g = false).
        { destruct (isCritical g) eqn:E; [|reflexivity].
          apply isCritical_rank in E.
          destruct (severity (findingIssue f)); simpl in Hlt; lia. }
        rewrite Hg; simpl; apply orb_comm.
      * destruct (isCritical f) eqn:E; [|now rewrite orb_false_r].
        apply isCritical_rank in E.
        assert (Hg : isCritical g = true).
        { apply isCritical_rank.
          destruct (severity (findingIssue g)); simpl in *; lia. }
        now rewrite Hg.
    + simpl; rewrite IH; now rewrite orb_assoc.
Qed.

Lemma fold_insert_critical (ext : Collaborators) (fs kept : list Finding) :
  existsb isCritical (fold_left (fun k f => insertFinding ext f k) fs kept)
  = existsb isCritical kept || existsb isCritical fs.
Proof.
  revert kept; induction fs as [|f fs IH]; intros kept; simpl.
  - now rewrite orb_false_r.
  - rewrite IH, insertFinding_critical; now rewrite orb_assoc.
Qed.

(** Deduplication keeps the presence of a critical finding. *)
Lemma dedup_critical (ext : Collaborators) (fs : list Finding) :
  existsb isCritical (dedup ext fs) = existsb isCritical fs.
Proof. unfold dedup; now rewrite fold_insert_critical. Qed.

Lemma flatten_critical (reviews : list FileReview) (fr : FileReview)
  (i : Issue) :
  In fr reviews -> In i (issues fr) -> severity i = critical ->
  existsb isCritical (flatten reviews) = true.
Proof.
  intros Hfr Hi Hsev; apply existsb_exists.
  exists (mkFinding (reviewedFile fr) i); split.
  - unfold flatten; apply in_flat_map; exists fr; split; [assumption|].
    now apply in_map.
  - unfold isCritical; simpl; now rewrite Hsev.
Qed.

Lemma bucket_nonempty (ext : Collaborators) (fs : list Finding) :
  existsb isCritical fs = true ->
  map (render ext) (filter isCritical fs) <> [].
Proof.
  intros H; apply existsb_exists in H as (f & Hin & Hf).
  assert (Hin' : In f (filter isCritical fs)) by (apply filter_In; now split).
  destruct (filter isCritical fs); [contradiction | discriminate].
Qed.

Lemma append_nonempty_differs (s note : string) :
  note <> "" -> s ++ note <> s.
Proof.
  intros Hnote Heq.
  assert (Hlen : String.length (s ++ note) = String.length s)
    by now rewrite Heq.
  rewrite StrFacts.length_append in Hlen.
  destruct note; [now apply Hnote | simpl in Hlen; lia].
Qed.

(** C5 (aggregation invariant): when some finding has severity critical,
    criticalIssues is not empty and the verdict of the aggregated review is
    not APPROVE: an APPROVE of the summarizer comes out as REQUEST_CHANGES
    with the override note appended to the summary, any other verdict and its
    summary come out unchanged.  The note not being empty, the override can
    be seen: the summary of the review differs from the summary the
    summarizer gave exactly when the verdict was overridden. *)
Theorem critical_finding_forbids_approve (ext : Collaborators)
  (allFileReviews : list FileReview) (skipped : list string)
  (fr : FileReview) (i : Issue)
  (Hfr : In fr allFileReviews) (Hi : In i (issues fr))
  (Hsev : severity i = critical)
  (Hnote : overrideNote ext <> "") :
  let s := summarizeFindings ext (dedup ext (flatten allFileReviews)) in
  let out := aggregate ext allFileReviews skipped in
  verdict out <> APPROVE
  /\ criticalIssues out <> []
  /\ (summaryVerdict s = APPROVE ->
      verdict out = REQUEST_CHANGES
      /\ summary out = summaryText s ++ overrideNote ext
      /\ summary out <> summaryText s)
  /\ (summaryVerdict s <> APPROVE ->
      verdict out = summaryVerdict s /\ summary out = summaryText s)
  /\ (summary out <> summaryText s <-> summaryVerdict s = APPROVE).
Proof.
  intros s out.
  pose proof (flatten_critical allFileReviews fr i Hfr Hi Hsev) as Hcrit.
  rewrite <- (dedup_critical ext) in Hcrit.
  pose proof (bucket_nonempty ext _ Hcrit) as Hne.
  pose proof (append_nonempty_differs (summaryText s) _ Hnote) as Hseen.
  subst out; unfold aggregate, enforceVerdict; fold s.
  destruct (map (render ext)
              (filter isCritical (dedup ext (flatten allFileReviews))))
    as [|c cs] eqn:Hbucket; [contradiction|].
  destruct (summaryVerdict s) eqn:Hv; simpl;
    repeat split; try discriminate; try congruence;
    try (intros H; exfalso; now apply H).
Qed.

(** The sample reviews hold a critical bug and the sample summarizer
    approves: the aggregated verdict is REQUEST_CHANGES, the note is on the
    summary, and the duplicate collapsed onto the critical instance. *)
Lemma critical_finding_forbids_approve_witness :
  verdict (aggregate Sample.approving Sample.reviews []) = REQUEST_CHANGES
  /\ summary (aggregate Sample.approving Sample.reviews [])
     = "Looks good. [verdict overridden: critical issues present]"
  /\ criticalIssues (aggregate Sample.approving Sample.reviews [])
     = ["src/a.ts: missing null check on x"].
Proof.
  destruct (critical_finding_forbids_approve Sample.approving Sample.reviews
              []
              (mkFileReview "src/a.ts"
                 [mkIssue warning bug (Some "12") "missing null check on x";
                  mkIssue critical bug (Some "12") "missing null check on x";
                  mkIssue suggestion style None "prefer const"])
              (mkIssue critical bug (Some "12") "missing null check on x")
              ltac:(now left) ltac:(right; now left) eq_refl
              ltac:(discriminate))
    as (_ & _ & Happrove & _).
  destruct (Happrove eq_refl) as (Hv & Hs & _).
  split; [exact Hv | split; [exact Hs | reflexivity]].
Defined.

End AggregatorFacts.

(* ================================================================== *)
(** * Further properties of the tools *)

(* ------------------------------------------------------------------ *)
(** ** Pages of getPullRequestFiles *)

Module PagingFacts.

Import Schemas Tools Paging ListFacts StrFacts FilesFacts PageFacts.

Lemma firstn_add {A} (a b : nat) (l : list A) :
  firstn (a + b) l = (firstn a l ++ firstn b (skipn a l))%list.
Proof.
  revert l; induction a as [|a IH]; intros l; [reflexivity|].
  destruct l as [|x l]; simpl; [now rewrite firstn_nil|].
  now rewrite IH.
Qed.

Lemma getPullRequestFiles_inv (cfg : Env.ReviewConfig) (gh : Env.GitHub)
  (o r : string) (n p : Z) (res : FilesResult) :
  outcome (getPullRequestFiles cfg gh (mkPRIdentifier o r n) p) = Ok res ->
  exists allFiles,
    Env.fetchAllPRFiles gh o r n = Ok allFiles
    /\ res = filesPage cfg allFiles p.
Proof.
  unfold getPullRequestFiles, bind, await; simpl.
  destruct (Env.fetchAllPRFiles gh o r n) as [allFiles|e]; simpl;
    [|discriminate].
  intros [= <-]; now exists allFiles.
Qed.

(** The number of files on the page [p >= 1]. *)
Lemma page_length (cfg : Env.ReviewConfig) (allFiles : list ChangedFile)
  (p : Z) :
  1 <= p ->
  Z.of_nat (List.length (files (filesPage cfg allFiles p)))
  = Z.min 30
      (Z.max 0 (Z.of_nat (List.length (reviewableFiles cfg allFiles))
                - (p - 1) * 30)).
Proof.
  intros Hp; rewrite page_window by assumption.
  rewrite length_map, length_firstn, length_skipn; lia.
Qed.

Lemma slice_length_le {A} (l : list A) (start width : Z) :
  0 <= width ->
  (List.length (slice l start (start + width)) <= Z.to_nat width)%nat.
Proof.
  intros Hw; unfold slice, relativeIndex.
  rewrite length_firstn.
  destruct (Z.ltb_spec start 0), (Z.ltb_spec (start + width) 0); lia.
Qed.

Lemma slice_length_le_list {A} (l : list A) (a b : Z) :
  (List.length (slice l a b) <= List.length l)%nat.
Proof.
  unfold slice; rewrite length_firstn, length_skipn; lia.
Qed.

Lemma reviewable_length_le (cfg : Env.ReviewConfig)
  (allFiles : list ChangedFile) :
  (List.length (reviewableFiles cfg allFiles) <= List.length allFiles)%nat.
Proof.
  pose proof (filter_partition_length
                (fun f => matchesSkipPattern cfg (filename f)) allFiles).
  unfold reviewableFiles; lia.
Qed.

(** X1 (the pages tile the reviewable list): the files of the pages 1 to [k],
    put one after the other, are the first [30 * k] reviewable files, each
    with its patch budgeted, in the order of the reviewable list; once
    [30 * k] reaches the number of reviewable files they are all of them,
    each exactly once. *)
Theorem pages_tile_reviewable (cfg : Env.ReviewConfig)
  (allFiles : list ChangedFile) (k : nat) :
  pagesUpTo cfg allFiles k
  = map (budgetPatch cfg) (firstn (30 * k) (reviewableFiles cfg allFiles))
  /\ ((List.length (reviewableFiles cfg allFiles) <= 30 * k)%nat ->
      pagesUpTo cfg allFiles k
      = map (budgetPatch cfg) (reviewableFiles cfg allFiles)
      /\ map filename (pagesUpTo cfg allFiles k)
         = map filename (reviewableFiles cfg allFiles)).
Proof.
  assert (Htile : pagesUpTo cfg allFiles k
                  = map (budgetPatch cfg)
                      (firstn (30 * k) (reviewableFiles cfg allFiles))).
  { induction k as [|k IH]; [reflexivity|].
    cbn [pagesUpTo]; rewrite IH, page_window by lia.
    replace (Z.to_nat ((Z.of_nat (S k) - 1) * 30)) with (30 * k)%nat by lia.
    rewrite <- map_app, <- firstn_add.
    do 2 f_equal; lia. }
  split; [exact Htile|].
  intros Hall; rewrite Htile, firstn_all2 by assumption.
  split; [reflexivity|].
  rewrite map_map; apply map_ext.
  intros f; apply (budgetPatch_frame cfg f).
Qed.

(** X2 (hasMore tells the truth): for a page [p >= 1], [hasMore] is true
    exactly when the next page holds at least one file. *)
Theorem hasMore_iff_next_page_nonempty (cfg : Env.ReviewConfig)
  (allFiles : list ChangedFile) (p : Z) (Hp : 1 <= p) :
  hasMore (filesPage cfg allFiles p) = true
  <-> files (filesPage cfg allFiles (p + 1)) <> [].
Proof.
  pose proof (page_length cfg allFiles (p + 1) ltac:(lia)) as Hlen.
  cbn [hasMore filesPage]; unfold FILES_PER_PAGE; rewrite Z.ltb_lt.
  split.
  - intros Hlt Hnil; rewrite Hnil in Hlen; simpl in Hlen; lia.
  - intros Hne.
    destruct (files (filesPage cfg allFiles (p + 1))) as [|g gs];
      [contradiction|].
    simpl List.length in Hlen; lia.
Qed.

Lemma hasMore_iff_next_page_nonempty_witness :
  hasMore (filesPage Sample.config (Sample.numbered 31) 1) = true
  /\ files (filesPage Sample.config (Sample.numbered 31) 2) <> []
  /\ hasMore (filesPage Sample.config (Sample.numbered 31) 2) = false.
Proof.
  pose proof (hasMore_iff_next_page_nonempty Sample.config
                (Sample.numbered 31) 1 ltac:(lia)) as H.
  assert (Hmore : hasMore (filesPage Sample.config (Sample.numbered 31) 1)
                  = true) by (vm_compute; reflexivity).
  split; [exact Hmore | split; [now apply H | vm_compute; reflexivity]].
Defined.

(** X3 (size of a page): for a page [p >= 1] over [R] reviewable files the
    page holds [min 30 (max 0 (R - (p-1)*30))] files, which is what
    [reviewableCount] reports: 30 on every page that [hasMore] follows, and
    none, with [hasMore] false, on a page past the end. *)
Theorem page_size (cfg : Env.ReviewConfig) (allFiles : list ChangedFile)
  (p : Z) (Hp : 1 <= p) :
  let R := Z.of_nat (List.length (reviewableFiles cfg allFiles)) in
  let res := filesPage cfg allFiles p in
  reviewableCount res = Z.min 30 (Z.max 0 (R - (p - 1) * 30))
  /\ (hasMore res = true -> reviewableCount res = 30)
  /\ (R <= (p - 1) * 30 -> files res = [] /\ hasMore res = false).
Proof.
  intros R res.
  pose proof (page_length cfg allFiles p Hp) as Hlen; fold R in Hlen.
  assert (Hcount : reviewableCount res
                   = Z.of_nat (List.length (files res))) by reflexivity.
  assert (Hmore : hasMore res = (p * 30 <? R)).
  { subst res R; cbn [hasMore filesPage]; unfold FILES_PER_PAGE.
    f_equal; lia. }
  fold res in Hlen.
  split; [lia | split].
  - rewrite Hmore, Z.ltb_lt; lia.
  - intros Hpast; split.
    + destruct (files res) as [|g gs]; [reflexivity|].
      simpl List.length in Hlen; lia.
    + rewrite Hmore; apply Z.ltb_ge; lia.
Qed.

Lemma page_size_witness :
  reviewableCount (filesPage Sample.config (Sample.numbered 31) 1) = 30
  /\ reviewableCount (filesPage Sample.config (Sample.numbered 31) 2) = 1
  /\ files (filesPage Sample.config (Sample.numbered 31) 3) = [].
Proof.
  split; [|split].
  - apply (page_size Sample.config (Sample.numbered 31) 1 ltac:(lia)).
    vm_compute; reflexivity.
  - vm_compute; reflexivity.
  - apply (page_size Sample.config (Sample.numbered 31) 3 ltac:(lia)).
    vm_compute; discriminate.
Defined.

(** X4 (pages below 1 are not rejected): a page number [p <= 0] gives a
    result like any other.  Page 0 is always empty and reports [hasMore]
    exactly when there is a reviewable file; a negative page always reports
    [hasMore], is empty when there are at most [-p * 30] reviewable files,
    and otherwise holds files counted from the end of the list. *)
Theorem nonpositive_page (cfg : Env.ReviewConfig)
  (allFiles : list ChangedFile) (p : Z) (Hp : p <= 0) :
  let R := List.length (reviewableFiles cfg allFiles) in
  let res := filesPage cfg allFiles p in
  page res = p
  /\ (p = 0 -> files res = [] /\ (hasMore res = true <-> R <> O))
  /\ (p < 0 -> hasMore res = true)
  /\ (p < 0 -> Z.of_nat R <= - p * 30 -> files res = [])
  /\ (p < 0 -> - p * 30 < Z.of_nat R ->
      files res
      = map (budgetPatch cfg)
          (firstn (Z.to_nat (Z.min 30 (Z.of_nat R + p * 30)))
             (skipn (Z.to_nat (Z.max 0 (Z.of_nat R + (p - 1) * 30)))
                (reviewableFiles cfg allFiles)))).
Proof.
  intros R res; subst res.
  cbn [page files hasMore filesPage]; unfold FILES_PER_PAGE, slice,
    relativeIndex; fold R.
  destruct (Z.ltb_spec ((p - 1) * 30) 0) as [_|]; [|lia].
  split; [reflexivity|].
  split; [|split; [|split]].
  - intros ->; split.
    + destruct (Z.ltb_spec ((0 - 1) * 30 + 30) 0); [lia|].
      replace (Z.to_nat (Z.min ((0 - 1) * 30 + 30) (Z.of_nat R)
                         - Z.max (Z.of_nat R + (0 - 1) * 30) 0))
        with O by lia.
      reflexivity.
    + rewrite Z.ltb_lt; lia.
  - intros Hneg; apply Z.ltb_lt; lia.
  - intros Hneg Hfew.
    destruct (Z.ltb_spec ((p - 1) * 30 + 30) 0); [|lia].
    replace (Z.to_nat (Z.max (Z.of_nat R + ((p - 1) * 30 + 30)) 0
                       - Z.max (Z.of_nat R + (p - 1) * 30) 0))
      with O by lia.
    reflexivity.
  - intros Hneg Hmany.
    destruct (Z.ltb_spec ((p - 1) * 30 + 30) 0); [|lia].
    do 2 f_equal; [lia | f_equal; lia].
Qed.

(** Of 31 reviewable files, page 0 is empty and page -1 holds the first
    file. *)
Lemma nonpositive_page_witness :
  files (filesPage Sample.config (Sample.numbered 31) 0) = []
  /\ hasMore (filesPage Sample.config (Sample.numbered 31) (-1)) = true
  /\ files (filesPage Sample.config (Sample.numbered 31) (-1))
     = firstn 1 (Sample.numbered 31)
  /\ hasMore (filesPage Sample.config [] (-1)) = true.
Proof.
  destruct (nonpositive_page Sample.config (Sample.numbered 31) 0
              ltac:(lia)) as (_ & Hzero & _).
  destruct (nonpositive_page Sample.config (Sample.numbered 31) (-1)
              ltac:(lia)) as (_ & _ & Hmore & _).
  destruct (nonpositive_page Sample.config [] (-1) ltac:(lia))
    as (_ & _ & Hnone & _).
  split; [apply Hzero; reflexivity|].
  split; [apply Hmore; lia|].
  split; [vm_compute; reflexivity | apply Hnone; lia].
Defined.

(** X5 (no skipped file is returned): whatever the page number, no file that
    [getPullRequestFiles] returns has a name that a configured skip pattern
    matches. *)
Theorem returned_files_match_no_skip_pattern (cfg : Env.ReviewConfig)
  (gh : Env.GitHub) (o r : string) (n p : Z) (res : FilesResult)
  (Hres : outcome (getPullRequestFiles cfg gh (mkPRIdentifier o r n) p)
          = Ok res) :
  forall g pat,
    In g (files res) -> In pat (Env.SKIP_PATTERNS cfg) ->
    pat (filename g) = false.
Proof.
  intros g pat Hg Hpat.
  apply getPullRequestFiles_inv in Hres as (allFiles & _ & ->).
  cbn [files filesPage] in Hg.
  apply in_map_iff in Hg as (f & <- & Hf).
  apply (Subsequence_In _ _ _ (Subsequence_slice _ _ _)) in Hf.
  apply reviewable_In in Hf as [_ Hm].
  destruct (budgetPatch_frame cfg f) as [-> _].
  unfold matchesSkipPattern in Hm.
  destruct (pat (filename f)) eqn:E; [|reflexivity].
  assert (existsb (fun q => q (filename f)) (Env.SKIP_PATTERNS cfg) = true)
    by (apply existsb_exists; now exists pat).
  congruence.
Qed.

Lemma returned_files_match_no_skip_pattern_witness :
  Str.endsWith "lock.json" (filename Sample.sourceFile) = false.
Proof.
  apply (returned_files_match_no_skip_pattern Sample.config
           (Sample.github "" [Sample.lockFile; Sample.sourceFile] None)
           "owner" "repo" 123 1
           (filesPage Sample.config [Sample.lockFile; Sample.sourceFile] 1)
           eq_refl Sample.sourceFile (Str.endsWith "lock.json")).
  - now left.
  - now left.
Defined.

(** X6 (bounds of a result): for every page number the tool returns at most
    30 files, [reviewableCount] is at most [totalFiles], and [totalFiles] is
    the number of fetched files whatever the page and the patterns. *)
Theorem files_result_bounds (cfg : Env.ReviewConfig)
  (allFiles : list ChangedFile) (p : Z) :
  (List.length (files (filesPage cfg allFiles p)) <= 30)%nat
  /\ 0 <= reviewableCount (filesPage cfg allFiles p)
     <= totalFiles (filesPage cfg allFiles p)
  /\ totalFiles (filesPage cfg allFiles p) = Z.of_nat (List.length allFiles).
Proof.
  cbn [files reviewableCount totalFiles filesPage]; unfold FILES_PER_PAGE.
  rewrite length_map.
  pose proof (slice_length_le (reviewableFiles cfg allFiles) ((p - 1) * 30)
                30 ltac:(lia)) as H30.
  pose proof (slice_length_le_list (reviewableFiles cfg allFiles)
                ((p - 1) * 30) ((p - 1) * 30 + 30)) as HR.
  pose proof (reviewable_length_le cfg allFiles) as Hall.
  repeat split; lia.
Qed.

Lemma budgetPatch_patchChars (cfg : Env.ReviewConfig) (f : ChangedFile) :
  0 <= Env.MAX_PATCH_CHARS_PER_FILE cfg ->
  0 <= patchChars (budgetPatch cfg f) <= Env.MAX_PATCH_CHARS_PER_FILE cfg.
Proof.
  intros H0; unfold patchChars, budgetPatch.
  destruct (patch f) as [q|] eqn:Hq.
  - destruct q as [|c q]; simpl; rewrite ?Hq.
    + unfold Str.len; simpl; lia.
    + split; [apply len_nonneg | now apply TruncateFacts.truncate_len_le].
  - rewrite Hq; lia.
Qed.

Lemma totalPatchChars_budgeted (cfg : Env.ReviewConfig)
  (l : list ChangedFile) :
  0 <= Env.MAX_PATCH_CHARS_PER_FILE cfg ->
  totalPatchChars (map (budgetPatch cfg) l)
  <= Z.of_nat (List.length l) * Env.MAX_PATCH_CHARS_PER_FILE cfg.
Proof.
  intros H0; induction l as [|f l IH]; [simpl; lia|].
  pose proof (budgetPatch_patchChars cfg f H0).
  cbn [map totalPatchChars fold_right List.length].
  fold (totalPatchChars (map (budgetPatch cfg) l)).
  rewrite Nat2Z.inj_succ; lia.
Qed.

(** X7 (a page fits its budget): with a non-negative per-file patch budget,
    every patch on a returned page is at most the budget long, and the
    patches of one page together hold at most 30 times the budget. *)
Theorem page_patches_within_budget (cfg : Env.ReviewConfig)
  (allFiles : list ChangedFile) (p : Z)
  (Hbudget : 0 <= Env.MAX_PATCH_CHARS_PER_FILE cfg) :
  (forall g q, In g (files (filesPage cfg allFiles p)) ->
     patch g = Some q -> Str.len q <= Env.MAX_PATCH_CHARS_PER_FILE cfg)
  /\ totalPatchChars (files (filesPage cfg allFiles p))
     <= 30 * Env.MAX_PATCH_CHARS_PER_FILE cfg.
Proof.
  split.
  - intros g q Hg Hq; cbn [files filesPage] in Hg.
    apply in_map_iff in Hg as (f & <- & _).
    pose proof (budgetPatch_patchChars cfg f Hbudget) as H.
    unfold patchChars in H; rewrite Hq in H; lia.
  - cbn [files filesPage]; unfold FILES_PER_PAGE.
    pose proof (totalPatchChars_budgeted cfg
                  (slice (reviewableFiles cfg allFiles) ((p - 1) * 30)
                     ((p - 1) * 30 + 30)) Hbudget) as Hsum.
    pose proof (slice_length_le (reviewableFiles cfg allFiles)
                  ((p - 1) * 30) 30 ltac:(lia)) as H30.
    nia.
Qed.

Lemma page_patches_within_budget_witness :
  totalPatchChars (files (filesPage Sample.config (Sample.numbered 31) 1))
  <= 30 * 20000.
Proof.
  apply (page_patches_within_budget Sample.config (Sample.numbered 31) 1).
  simpl; lia.
Defined.

Lemma reviewable_withPattern (pat : string -> bool) (cfg : Env.ReviewConfig)
  (allFiles : list ChangedFile) :
  reviewableFiles (withPattern pat cfg) allFiles
  = filter (fun f => negb (pat (filename f))) (reviewableFiles cfg allFiles).
Proof.
  unfold reviewableFiles, matchesSkipPattern, withPattern; simpl.
  induction allFiles as [|f l IH]; [reflexivity|].
  simpl; rewrite IH.
  destruct (pat (filename f)) eqn:Hpat;
    destruct (existsb (fun q => q (filename f)) (Env.SKIP_PATTERNS cfg));
    simpl; rewrite ?Hpat; reflexivity.
Qed.

(** X8 (skip patterns only remove): with no skip pattern every fetched file
    is reviewable; one more pattern keeps the order and removes exactly the
    reviewable files whose name it matches. *)
Theorem more_patterns_fewer_files (pat : string -> bool)
  (cfg : Env.ReviewConfig) (allFiles : list ChangedFile) :
  (Env.SKIP_PATTERNS cfg = [] -> reviewableFiles cfg allFiles = allFiles)
  /\ Spec.Subsequence (reviewableFiles (withPattern pat cfg) allFiles)
       (reviewableFiles cfg allFiles)
  /\ (forall f, In f (reviewableFiles (withPattern pat cfg) allFiles)
                <-> In f (reviewableFiles cfg allFiles)
                    /\ pat (filename f) = false).
Proof.
  split; [|split].
  - intros Hnone; unfold reviewableFiles, matchesSkipPattern.
    rewrite Hnone; simpl.
    induction allFiles as [|f l IH]; simpl; [reflexivity | now rewrite IH].
  - rewrite reviewable_withPattern; apply Subsequence_filter.
  - intros f; rewrite reviewable_withPattern, filter_In, negb_true_iff.
    reflexivity.
Qed.

End PagingFacts.

(* ------------------------------------------------------------------ *)
(** ** Runs of the fetching tools *)

Module RunFacts.

Import Schemas Tools StrFacts TruncateFacts BudgetFacts.

(** X9 (the returned diff): when the diff is fetched, the [diff] returned is
    a prefix of the fetched text and at most 80,000 characters long; with
    [truncated] false it is the fetched text itself, with [truncated] true it
    is exactly 80,000 characters of a longer text. *)
Theorem diff_is_bounded_prefix (gh : Env.GitHub) (o r : string) (n : Z)
  (d : string) (Hfetch : Env.fetchDiffText gh o r n = Ok d) :
  exists res,
    getPullRequestDiff gh (mkPRIdentifier o r n)
    = mkRun [GetDiff o r n] (Ok res)
    /\ Str.isPrefix (diff res) d
    /\ Str.len (diff res) <= MAX_DIFF_CHARS
    /\ (truncated res = false -> diff res = d)
    /\ (truncated res = true ->
        Str.len (diff res) = MAX_DIFF_CHARS /\ MAX_DIFF_CHARS < Str.len d).
Proof.
  exists (diffResult d); split; [now apply getPullRequestDiff_ok|].
  destruct (diffResult_flag d) as [Hflag Hdiff].
  rewrite Hflag, Hdiff.
  split; [apply truncate_isPrefix|].
  split; [apply truncate_len_le; unfold MAX_DIFF_CHARS; lia|].
  split.
  - intros Hfit; apply overBudget_false in Hfit; now apply truncate_fits.
  - intros Hcut; apply overBudget_true in Hcut.
    split; [|assumption].
    apply truncate_len_cut; [unfold MAX_DIFF_CHARS; lia | assumption].
Qed.

Lemma diff_is_bounded_prefix_witness :
  exists res,
    getPullRequestDiff (Sample.github "diff --git a/x b/x" [] None) Sample.pr
    = mkRun [GetDiff "owner" "repo" 123] (Ok res)
    /\ diff res = "diff --git a/x b/x".
Proof.
  destruct (diff_is_bounded_prefix
              (Sample.github "diff --git a/x b/x" [] None)
              "owner" "repo" 123 "diff --git a/x b/x" eq_refl)
    as (res & Hrun & _ & _ & Hsame & _).
  exists res; split; [exact Hrun|].
  apply Hsame.
  injection Hrun as <-; reflexivity.
Defined.

(** X10 (a failed fetch is not swallowed): when the request of a tool is
    rejected, the tool throws that same error after its single request: no
    diff, no page and no null content is returned in its place. *)
Theorem fetch_errors_propagate (cfg : Env.ReviewConfig) (gh : Env.GitHub)
  (o r path ref : string) (n p : Z) (e : Error) :
  (Env.fetchDiffText gh o r n = Threw e ->
   getPullRequestDiff gh (mkPRIdentifier o r n)
   = mkRun [GetDiff o r n] (Threw e))
  /\ (Env.fetchAllPRFiles gh o r n = Threw e ->
      getPullRequestFiles cfg gh (mkPRIdentifier o r n) p
      = mkRun [GetFiles o r n] (Threw e))
  /\ (Env.fetchFileContent gh o r path ref = Threw e ->
      getFileContent cfg gh o r path ref
      = mkRun [GetContent o r path ref] (Threw e)).
Proof.
  repeat split; intros Hfetch;
    unfold getPullRequestDiff, getPullRequestFiles, getFileContent, bind,
      await; simpl; rewrite Hfetch; reflexivity.
Qed.

(** X11 (null content means a missing file, nothing else): when the content
    is fetched, the [content] returned is null exactly when
    [fetchFileContent] resolved to null; an existing file that is empty comes
    back with empty content, not with null. *)
Theorem null_content_iff_missing (cfg : Env.ReviewConfig) (gh : Env.GitHub)
  (o r path ref : string) (result : option Env.FileContent)
  (Hfetch : Env.fetchFileContent gh o r path ref = Ok result) :
  exists res,
    outcome (getFileContent cfg gh o r path ref) = Ok res
    /\ (content res = None <-> result = None)
    /\ (forall fc, result = Some fc -> Env.content fc = "" ->
        content res = Some "").
Proof.
  exists (contentResult cfg result); split.
  - now rewrite (getFileContent_run cfg gh o r path ref result Hfetch).
  - destruct result as [fc|]; simpl; split.
    + split; discriminate.
    + intros fc' [= <-] Hempty; rewrite Hempty.
      unfold Lib.truncate; destruct (Str.len "" <=? _); [reflexivity|].
      now destruct (Z.to_nat _).
    + split; reflexivity.
    + discriminate.
Qed.

Lemma null_content_iff_missing_witness :
  exists res,
    outcome (getFileContent Sample.config
               (Sample.github "" [] (Some (Env.mkFileContent "" "utf-8" 0)))
               "owner" "repo" "empty.txt" "abc123") = Ok res
    /\ content res = Some "".
Proof.
  destruct (null_content_iff_missing Sample.config
              (Sample.github "" [] (Some (Env.mkFileContent "" "utf-8" 0)))
              "owner" "repo" "empty.txt" "abc123" _ eq_refl)
    as (res & Hres & _ & Hempty).
  exists res; split; [exact Hres|].
  now apply (Hempty (Env.mkFileContent "" "utf-8" 0)).
Defined.

End RunFacts.

(* ------------------------------------------------------------------ *)
(** ** More about parseGitHubPRUrl *)

Module UrlMoreFacts.

Import Schemas Regex Tools UrlMatch StrFacts RegexFacts UrlFacts.

Lemma parse_isPRUrl (url o r d : string) :
  Spec.isPRUrl ["http"; "https"] url o r d ->
  parseGitHubPRUrl url
  = ret (mkParsedUrl o r (roundToDouble (Spec.decimalValue d))).
Proof.
  intros Hurl; unfold parseGitHubPRUrl.
  assert (Hd : Spec.isDigits d)
    by (destruct Hurl as (? & ? & _ & _ & _ & _ & Hd & _); exact Hd).
  rewrite exec_PR_URL_RE, (matchUrl_complete url o r d Hurl).
  cbn [nth]; now rewrite (parseInt10_digits d Hd).
Qed.

(** X12 (scheme and trailing slash do not matter): for an owner and a repo
    that are non-empty and hold no slash, and a non-empty run of digits, the
    four URLs with the scheme [http] or [https], with or without a slash at
    the end, are all parsed into the same owner, repo and number: the Number
    value of the integer the digits denote. *)
Theorem parse_ignores_scheme_and_trailing_slash (o r d : string)
  (Ho : Spec.isSegment o) (Hr : Spec.isSegment r) (Hd : Spec.isDigits d) :
  let id := ret (mkParsedUrl o r (roundToDouble (Spec.decimalValue d))) in
  parseGitHubPRUrl
    ("https://github.com/" ++ o ++ "/" ++ r ++ "/pull/" ++ d) = id
  /\ parseGitHubPRUrl
       ("https://github.com/" ++ o ++ "/" ++ r ++ "/pull/" ++ d ++ "/") = id
  /\ parseGitHubPRUrl
       ("http://github.com/" ++ o ++ "/" ++ r ++ "/pull/" ++ d) = id
  /\ parseGitHubPRUrl
       ("http://github.com/" ++ o ++ "/" ++ r ++ "/pull/" ++ d ++ "/") = id.
Proof.
  intros id; subst id.
  repeat split; apply parse_isPRUrl.
  - exists "https", ""; rewrite append_empty_r; simpl; intuition.
  - exists "https", "/"; simpl; intuition.
  - exists "http", ""; rewrite append_empty_r; simpl; intuition.
  - exists "http", "/"; simpl; intuition.
Qed.

Lemma parse_ignores_scheme_and_trailing_slash_witness :
  parseGitHubPRUrl "http://github.com/mastra-ai/mastra/pull/0042/"
  = parseGitHubPRUrl "https://github.com/mastra-ai/mastra/pull/0042".
Proof.
  assert (Ho : Spec.isSegment "mastra-ai") by (split; [discriminate | reflexivity]).
  assert (Hr : Spec.isSegment "mastra") by (split; [discriminate | reflexivity]).
  assert (Hd : Spec.isDigits "0042") by (split; [discriminate | reflexivity]).
  destruct (parse_ignores_scheme_and_trailing_slash
              "mastra-ai" "mastra" "0042" Ho Hr Hd) as (H1 & _ & _ & H4).
  exact (eq_trans H4 (eq_sym H1)).
Defined.

Lemma matchPath_rejects_rest (o r d rest : string) :
  Spec.isSegment o -> Spec.isSegment r -> Spec.isDigits d ->
  Str.stopsAt isDigit rest -> rest <> "" -> rest <> "/" ->
  matchPath ("://github.com/" ++ o ++ "/" ++ r ++ "/pull/" ++ d ++ rest)
  = None.
Proof.
  intros Ho Hr Hd Hstop Hne Hns; unfold matchPath.
  rewrite stripPrefix_app, (isSegment_span o) by assumption.
  destruct o as [|c1 o]; [now destruct Ho|].
  rewrite stripPrefix_app.
  change ("/pull/" ++ d ++ rest) with ("/" ++ "pull/" ++ d ++ rest).
  rewrite (isSegment_span r) by assumption.
  destruct r as [|c2 r]; [now destruct Hr|].
  change ("/" ++ "pull/" ++ d ++ rest) with ("/pull/" ++ d ++ rest).
  rewrite stripPrefix_app.
  rewrite (span_complete isDigit d rest) by (assumption || apply Hd).
  destruct d as [|c3 d]; [now destruct Hd|].
  destruct (String.eqb_spec rest ""); [contradiction|].
  destruct (String.eqb_spec rest "/"); [contradiction|].
  reflexivity.
Qed.

Lemma matchPath_needs_host (s : string) : matchPath (String "s" s) = None.
Proof. reflexivity. Qed.

(** X13 (nothing may follow the number): a pull-request URL followed by
    anything but a single slash, where what follows does not start with a
    digit (a sub-page such as [/files], a query, a fragment, a second slash,
    a space), is rejected with the invalid-URL error and without a
    request. *)
Theorem parse_rejects_trailing_text (scheme o r d rest : string)
  (Hscheme : scheme = "http" \/ scheme = "https")
  (Ho : Spec.isSegment o) (Hr : Spec.isSegment r) (Hd : Spec.isDigits d)
  (Hstop : Str.stopsAt isDigit rest)
  (Hne : rest <> "") (Hns : rest <> "/") :
  let url := scheme ++ "://github.com/" ++ o ++ "/" ++ r ++ "/pull/" ++ d
             ++ rest in
  parseGitHubPRUrl url = throw (invalidUrlMessage url).
Proof.
  intros url; unfold parseGitHubPRUrl; rewrite exec_PR_URL_RE.
  replace (matchUrl url) with (@None captures); [reflexivity|].
  symmetry; subst url; unfold matchUrl.
  destruct Hscheme as [-> | ->].
  - change ("http" ++ "://github.com/" ++ o ++ "/" ++ r ++ "/pull/" ++ d
            ++ rest)
      with ("http" ++ ("://github.com/" ++ o ++ "/" ++ r ++ "/pull/" ++ d
                       ++ rest)).
    rewrite stripPrefix_app, host_has_no_s.
    now apply matchPath_rejects_rest.
  - change ("https" ++ "://github.com/" ++ o ++ "/" ++ r ++ "/pull/" ++ d
            ++ rest)
      with ("http" ++ "s" ++ ("://github.com/" ++ o ++ "/" ++ r ++ "/pull/"
                              ++ d ++ rest)).
    rewrite !stripPrefix_app.
    rewrite matchPath_rejects_rest by assumption.
    apply matchPath_needs_host.
Qed.

Lemma parse_rejects_trailing_text_witness :
  parseGitHubPRUrl "https://github.com/o/r/pull/12?diff=split"
  = throw (invalidUrlMessage "https://github.com/o/r/pull/12?diff=split").
Proof.
  apply (parse_rejects_trailing_text "https" "o" "r" "12" "?diff=split");
    try (split; [discriminate | reflexivity]);
    try discriminate; try reflexivity.
  now right.
Defined.

(** X14 (what a parsed identifier looks like): whenever [parseGitHubPRUrl]
    succeeds, the owner and the repo are non-empty and hold no slash, the
    pull number is a number that is not negative (never [NaN]), and no
    request was sent. *)
Theorem parsed_identifier_is_well_formed (url : string) (id : ParsedUrl)
  (Hok : outcome (parseGitHubPRUrl url) = Ok id) :
  Spec.isSegment (owner id) /\ Spec.isSegment (repo id)
  /\ nonNegative (pullNumber id)
  /\ calls (parseGitHubPRUrl url) = [].
Proof.
  unfold parseGitHubPRUrl in *; rewrite exec_PR_URL_RE in *.
  destruct (matchUrl url) as [caps|] eqn:E; [|discriminate Hok].
  destruct (matchUrl_sound url caps E) as (o & r & d & -> & Hurl).
  destruct Hurl as (scheme & tail & _ & _ & Ho & Hr & Hd & _).
  cbn [nth] in *; rewrite (parseInt10_digits d Hd) in *.
  injection Hok as <-; cbn [owner repo pullNumber].
  repeat split; try apply Ho; try apply Hr.
  apply roundToDouble_nonNegative; now apply decimalValue_nonneg.
Qed.

Lemma parsed_identifier_is_well_formed_witness :
  Spec.isSegment "octo" /\ nonNegative (Finite 42).
Proof.
  destruct (parsed_identifier_is_well_formed
              "http://github.com/octo/hello/pull/42"
              (mkParsedUrl "octo" "hello" (Finite 42)) eq_refl)
    as (Ho & _ & Hn & _).
  split; [exact Ho | exact Hn].
Defined.

End UrlMoreFacts.

(* ------------------------------------------------------------------ *)
(** ** What getPullRequestFiles reports of the partition *)

Module PartitionFacts.

Import Schemas Tools Paging Partition ListFacts StrFacts FilesFacts PageFacts
  PagingFacts.






End PartitionFacts.
